(** * JobAnalysisapp: the CSV extractor, the aggregator and the report renderer

    A shallow embedding of [utils.py] and of the data path of [app.py].

    Conventions of the embedding.
    - A Python [str] is a list of characters; a character is a code point
      below 256, carried by [ascii].  The classes used by [re] and by
      [str.strip]/[str.lower] are those CPython gives to these code points.
    - A pandas scalar is a [pyval]: a text, an integer, a timestamp at
      midnight or a missing value (NaN, NaT).  Finite non-integral floats
      and booleans are left out of the model.
    - The CSV reader, the widgets and the spreadsheet writer are the
      libraries of the program: [pd.read_csv] is the outcome it has on a
      file, the filter widgets are the two values they return, and the
      workbook is the grid of cells with the attributes the code sets.
    - A Python [dict] whose key order is observable (the record returned by
      [process_csv_file] becomes the column order of the table) is an
      association list in insertion order.
    - An exception raised inside a [try] block is the [Raise] outcome of a
      small error monad that carries the local variables bound so far. *)

From Stdlib Require Import String Ascii List ZArith Lia Bool Arith PeanoNat.
From Stdlib Require Import Permutation Sorted.
Import ListNotations.
Local Open Scope list_scope.

(* ================================================================== *)
(** * Python strings                                                    *)
(* ================================================================== *)

Module Py.

Definition str := list ascii.

(** A literal of the source. *)
Definition lit (s : string) : str := list_ascii_of_string s.

Definition code (c : ascii) : nat := nat_of_ascii c.

Definition between (lo hi : nat) (c : ascii) : bool :=
  (lo <=? code c) && (code c <=? hi).

(** [\d] of [re] on a [str] pattern: the decimal digits; below 256 these
    are 0-9 only. *)
Definition is_digit (c : ascii) : bool := between 48 57 c.

(** [\w] of [re] on a [str] pattern: alphanumeric or underscore. *)
Definition is_word (c : ascii) : bool :=
  is_digit c || between 65 90 c || between 97 122 c || (code c =? 95)
  || (code c =? 170) || (code c =? 178) || (code c =? 179)
  || (code c =? 181) || (code c =? 185) || (code c =? 186)
  || between 188 190 c || between 192 214 c || between 216 246 c
  || between 248 255 c.

(** [str.isspace] on one character. *)
Definition is_space (c : ascii) : bool :=
  between 9 13 c || between 28 32 c || (code c =? 133) || (code c =? 160).

(** [str.lower] on one character. *)
Definition lower_char (c : ascii) : ascii :=
  if between 65 90 c || (between 192 222 c && negb (code c =? 215))
  then ascii_of_nat (code c + 32) else c.

Definition lower (s : str) : str := map lower_char s.

Definition eqb_char (a b : ascii) : bool := Ascii.eqb a b.

Fixpoint eqb (a b : str) : bool :=
  match a, b with
  | [], [] => true
  | x :: a', y :: b' => eqb_char x y && eqb a' b'
  | _, _ => false
  end.

Fixpoint startswith (p s : str) : bool :=
  match p, s with
  | [], _ => true
  | x :: p', y :: s' => eqb_char x y && startswith p' s'
  | _ :: _, [] => false
  end.

(** [sub in s]. *)
Fixpoint contains (sub s : str) : bool :=
  startswith sub s ||
  match s with
  | [] => false
  | _ :: s' => contains sub s'
  end.

Fixpoint lstrip (s : str) : str :=
  match s with
  | c :: s' => if is_space c then lstrip s' else s
  | [] => []
  end.

Definition rstrip (s : str) : str := rev (lstrip (rev s)).

(** [s.strip()]. *)
Definition strip (s : str) : str := rstrip (lstrip s).

(** [str(n)] for a non-negative integer, most significant digit first. *)
Fixpoint digits_of (fuel n : nat) (acc : str) : str :=
  match fuel with
  | O => acc
  | S fuel' =>
      let acc' := ascii_of_nat (48 + n mod 10) :: acc in
      if n <? 10 then acc' else digits_of fuel' (n / 10) acc'
  end.

Definition str_of_nat (n : nat) : str := digits_of (S n) n [].

(** [str(z)] for an [int]. *)
Definition str_of_int (z : Z) : str :=
  match z with
  | Zneg p => lit "-" ++ str_of_nat (Pos.to_nat p)
  | _ => str_of_nat (Z.to_nat z)
  end.

(** Lexicographic [<] on [str], by code point. *)
Fixpoint ltb (a b : str) : bool :=
  match a, b with
  | _, [] => false
  | [], _ :: _ => true
  | x :: a', y :: b' =>
      (code x <? code y) || ((code x =? code y) && ltb a' b')
  end.

End Py.

(* ================================================================== *)
(** * The regular expression of the extractor                          *)
(* ================================================================== *)

(** [re.search(r'\b(\d{2})(\d{2})(\d{4})\b', filename)].  The pattern has no
    alternation and no variable repetition, so an attempt at one position
    either matches in one way or fails; [search] tries the positions from
    left to right and keeps the first success. *)
Module Re.
Import Py.

Definition is_word_at (c : option ascii) : bool :=
  match c with
  | Some x => is_word x
  | None => false
  end.

(** [\b] between the character before the position and the one after it;
    outside the string counts as a non-word character. *)
Definition word_boundary (prev next : option ascii) : bool :=
  xorb (is_word_at prev) (is_word_at next).

(** [\d{n}]: exactly [n] digits; returns them with the rest of the
    string. *)
Fixpoint digits (n : nat) (s : str) : option (str * str) :=
  match n with
  | O => Some ([], s)
  | S n' =>
      match s with
      | c :: s' =>
          if is_digit c then
            match digits n' s' with
            | Some (g, rest) => Some (c :: g, rest)
            | None => None
            end
          else None
      | [] => None
      end
  end.

(** The groups of a match: [group(1)], [group(2)], [group(3)]. *)
Definition groups := (str * str * str)%type.

Definition match_here (prev : option ascii) (s : str) : option groups :=
  if word_boundary prev (hd_error s) then
    match digits 2 s with
    | Some (g1, s1) =>
        match digits 2 s1 with
        | Some (g2, s2) =>
            match digits 4 s2 with
            | Some (g3, s3) =>
                if word_boundary (hd_error (rev g3)) (hd_error s3)
                then Some (g1, g2, g3) else None
            | None => None
            end
        | None => None
        end
    | None => None
    end
  else None.

Fixpoint search_from (prev : option ascii) (s : str) : option groups :=
  match match_here prev s with
  | Some g => Some g
  | None =>
      match s with
      | [] => None
      | c :: s' => search_from (Some c) s'
      end
  end.

Definition search (s : str) : option groups := search_from None s.

End Re.


(* ================================================================== *)
(** * pandas values and tables                                         *)
(* ================================================================== *)

Module Pandas.
Import Py.

(** A calendar day, as [datetime.date] and as the day of a [Timestamp]
    at midnight. *)
Record date := mkdate { year : Z; month : Z; day : Z }.

Inductive pyval :=
| PStr (s : str)      (* str *)
| PInt (z : Z)        (* int, numpy.int64 *)
| PNaN                (* float('nan'), the missing value *)
| PDate (d : date)    (* Timestamp at midnight *)
| PNaT.               (* the missing timestamp *)

(** A table in row order.  A row holds one cell per column; a cell that a
    short row lacks reads as NaN, as [read_csv] fills it.  Column names
    are taken to be distinct, as [read_csv] makes them. *)
Record DataFrame := mkdf { columns : list str; rows : list (list pyval) }.

(** [len(df)]. *)
Definition len (df : DataFrame) : nat := length (rows df).

Fixpoint index_of (c : str) (cols : list str) : option nat :=
  match cols with
  | [] => None
  | x :: cols' =>
      if Py.eqb x c then Some 0
      else match index_of c cols' with
           | Some i => Some (S i)
           | None => None
           end
  end.

Definition cell (i : nat) (row : list pyval) : pyval := nth i row PNaN.

(** [df[c]] as the list of its values; [None] is the [KeyError]. *)
Definition getitem (df : DataFrame) (c : str) : option (list pyval) :=
  match index_of c (columns df) with
  | Some i => Some (map (cell i) (rows df))
  | None => None
  end.

(** [series.iloc[i]]; [None] is the [IndexError]. *)
Definition iloc (s : list pyval) (i : nat) : option pyval := nth_error s i.

Definition pad (width : nat) (s : str) : str :=
  repeat "0"%char (width - length s) ++ s.

Definition iso_date (d : date) : str :=
  pad 4 (str_of_int (year d)) ++ lit "-" ++ pad 2 (str_of_int (month d))
  ++ lit "-" ++ pad 2 (str_of_int (day d)).

(** The text [series.astype(str)] gives one value. *)
Definition astype_str (v : pyval) : str :=
  match v with
  | PStr s => s
  | PInt z => str_of_int z
  | PNaN => lit "nan"
  | PDate d => iso_date d
  | PNaT => lit "NaT"
  end.

Definition date_eqb (a b : date) : bool :=
  (year a =? year b)%Z && (month a =? month b)%Z && (day a =? day b)%Z.

(** The scalar comparison [a == b]: NaN and NaT equal nothing, a text
    never equals a number. *)
Definition py_eq (a b : pyval) : bool :=
  match a, b with
  | PStr x, PStr y => Py.eqb x y
  | PInt x, PInt y => (x =? y)%Z
  | PDate x, PDate y => date_eqb x y
  | _, _ => false
  end.

(** Sameness as the hash tables of [unique] and [isin] see it: like [==],
    except that the missing values are the same as themselves. *)
Definition same (a b : pyval) : bool :=
  match a, b with
  | PNaN, PNaN => true
  | PNaT, PNaT => true
  | _, _ => py_eq a b
  end.

(** [(series == v).sum()]: the [True] entries of the mask count 1 each. *)
Fixpoint eq_sum (s : list pyval) (v : pyval) : Z :=
  match s with
  | [] => 0
  | x :: s' => ((if py_eq x v then 1 else 0) + eq_sum s' v)%Z
  end.

End Pandas.

(* ================================================================== *)
(** * utils.py: the extractor                                          *)
(* ================================================================== *)

Module Utils.
Import Py Pandas.

(** An uploaded file as [process_csv_file] uses it: [file.name], absent
    when the attribute access raises, and what [pd.read_csv(file)] does
    with the content, [None] when it raises (empty or malformed CSV, I/O
    error). *)
Record file := mkfile { name : option str; read_csv : option DataFrame }.

(** The record of one file: a [dict] in insertion order. *)
Definition dict := list (str * pyval).

Fixpoint get (k : str) (d : dict) : option pyval :=
  match d with
  | [] => None
  | (k', v) :: d' => if Py.eqb k' k then Some v else get k d'
  end.

Definition File_Name := lit "File Name".
Definition Vessel_Name := lit "Vessel Name".
Definition Total_Count_of_Jobs := lit "Total Count of Jobs".
Definition New_Job_Count := lit "New Job Count".
Definition Date_Extracted := lit "Date Extracted from File Name".

(** The local variables the [except] block looks up in [locals()]. *)
Record locals :=
  mklocals { filename : option str; formatted_date : option str }.

Inductive outcome (A : Type) :=
| Return (a : A)
| Raise (l : locals).
Arguments Return {A} a.
Arguments Raise {A} l.

(** [x <- e raising l ;; k]: run [e]; if it raises, the exception leaves
    the [try] block with the locals [l] bound. *)
Notation "x <- e 'raising' l ;; k" :=
  (match e with
   | Some x => k
   | None => Raise l
   end) (at level 61, e at next level, l at next level,
         right associativity).

(** [next((col for col in df.columns if sub in col.lower()), None)]. *)
Definition sniff (sub : str) (df : DataFrame) : option str :=
  find (fun col => contains sub (lower col)) (columns df).

(** Truth value of a name that is [None] or a [str]. *)
Definition truthy (c : option str) : bool :=
  match c with
  | Some (_ :: _) => true
  | _ => false
  end.

Definition format_date (m : option Re.groups) : str :=
  match m with
  | Some (g1, g2, g3) => g1 ++ lit "-" ++ g2 ++ lit "-" ++ g3
  | None => lit "Unknown"
  end.

Definition or_empty (c : option str) : str :=
  match c with
  | Some s => s
  | None => []
  end.

(** The body of the [try] block. *)
Definition try_block (f : file) : outcome dict :=
  fname <- name f raising (mklocals None None) ;;
  let date_match := Re.search fname in
  let fdate := format_date date_match in
  let bound := mklocals (Some fname) (Some fdate) in
  df <- read_csv f raising bound ;;
  let vessel_column := sniff (lit "vessel") df in
  vessel_name <-
    (if truthy vessel_column
     then match getitem df (or_empty vessel_column) with
          | Some s => iloc s 0
          | None => None
          end
     else Some (PStr (lit "Vessel column not found")))
    raising bound ;;
  let status_column := sniff (lit "status") df in
  let job_count := Z.of_nat (len df) in
  new_job_count <-
    (if truthy status_column
     then match getitem df (or_empty status_column) with
          | Some s =>
              let stripped := map (fun v => PStr (strip (astype_str v))) s in
              Some (eq_sum stripped (PStr (lit "New")))
          | None => None
          end
     else Some 0%Z)
    raising bound ;;
  Return [ (File_Name, PStr fname);
           (Vessel_Name, vessel_name);
           (Total_Count_of_Jobs, PInt job_count);
           (New_Job_Count, PInt new_job_count);
           (Date_Extracted, PStr fdate) ].

Definition or_unknown (v : option str) : pyval :=
  match v with
  | Some s => PStr s
  | None => PStr (lit "Unknown")
  end.

(** The [except Exception] block. *)
Definition except_block (l : locals) : dict :=
  [ (File_Name, or_unknown (filename l));
    (Vessel_Name, PStr (lit "Error"));
    (Total_Count_of_Jobs, PStr (lit "Error"));
    (New_Job_Count, PStr (lit "Error"));
    (Date_Extracted, or_unknown (formatted_date l)) ].

Definition process_csv_file (f : file) : dict :=
  match try_block f with
  | Return d => d
  | Raise l => except_block l
  end.

End Utils.

(* ================================================================== *)
(** * utils.py: totals of the pie chart and the report renderer        *)
(* ================================================================== *)

Module Report.
Import Py Pandas Utils.

(** [series.sum()] of a count column as an integer total.  [None] stands
    for every other outcome: a column holding a sentinel text beside
    numbers makes the addition raise, a column of sentinel texts alone
    adds up to a text. *)
Fixpoint sum (s : list pyval) : option Z :=
  match s with
  | [] => Some 0%Z
  | PInt z :: s' =>
      match sum s' with
      | Some t => Some (z + t)%Z
      | None => None
      end
  | _ :: _ => None
  end.

Definition column_sum (df : DataFrame) (c : str) : option Z :=
  match getitem df c with
  | Some s => sum s
  | None => None
  end.

(** The values of [create_jobs_pie_chart]: [total_jobs], [new_jobs] and
    [existing_jobs = total_jobs - new_jobs]. *)
Definition create_jobs_pie_chart (df : DataFrame) : option (Z * Z * Z) :=
  match column_sum df Total_Count_of_Jobs, column_sum df New_Job_Count with
  | Some total_jobs, Some new_jobs =>
      Some (total_jobs, new_jobs, (total_jobs - new_jobs)%Z)
  | _, _ => None
  end.

(** ** The worksheet of openpyxl *)

Inductive xval :=
| XStr (s : str)
| XInt (z : Z)
| XNone               (* an empty cell *)
| XDateTime (d : date).

(** [str(cell.value)]. *)
Definition str_of_value (v : xval) : str :=
  match v with
  | XStr s => s
  | XInt z => str_of_int z
  | XNone => lit "None"
  | XDateTime d => iso_date d ++ lit " 00:00:00"
  end.

Inductive PatternFill := NoFill | SolidFill (rgb : str).
Inductive Font := DefaultFont | MkFont (color : str) (bold : bool).
Inductive Border := NoBorder | ThinBorder.
Record Alignment :=
  mkalign { horizontal : option str; vertical : option str;
            wrap_text : bool }.

Record Cell :=
  mkcell { value : xval; fill : PatternFill; font : Font;
           alignment : Alignment; border : Border }.

Definition no_alignment := mkalign None None false.
Definition blank (v : xval) : Cell :=
  mkcell v NoFill DefaultFont no_alignment NoBorder.

(** A worksheet: the grid of cells, first row first, then what the code
    attaches to the sheet. *)
Record Worksheet :=
  mkws { grid : list (list Cell);
         conditional_formatting : list (str * PatternFill);
         tables : list (str * str);
         column_widths : list nat }.

Definition max_row (ws : Worksheet) : nat := Nat.max 1 (length (grid ws)).

Definition with_grid (g : list (list Cell)) (ws : Worksheet) : Worksheet :=
  mkws g (conditional_formatting ws) (tables ws) (column_widths ws).

Definition to_cell_value (v : pyval) : xval :=
  match v with
  | PStr s => XStr s
  | PInt z => XInt z
  | PDate d => XDateTime d
  | PNaN | PNaT => XNone
  end.

(** [df.to_excel(output, index=False)] read back by [load_workbook]:
    the header row, then one row per row of the table.  The styles pandas
    gives the header cells are not kept: the code overwrites the four of
    them it sets on that row. *)
Definition load_workbook (df : DataFrame) : Worksheet :=
  mkws (map (fun c => blank (XStr c)) (columns df)
        :: map (map (fun v => blank (to_cell_value v))) (rows df))
       [] [] [].

(** [range(start, stop, step)] for a positive step. *)
Fixpoint range_fuel (fuel start stop step : nat) : list nat :=
  match fuel with
  | O => []
  | S fuel' =>
      if start <? stop
      then start :: range_fuel fuel' (start + step) stop step
      else []
  end.

Definition range (start stop step : nat) : list nat :=
  range_fuel stop start stop step.

(** Apply [f] to every cell of sheet row [r] (rows count from 1). *)
Fixpoint on_row (r : nat) (f : Cell -> Cell) (g : list (list Cell))
  : list (list Cell) :=
  match r, g with
  | _, [] => []
  | O, _ => g
  | 1, row :: g' => map f row :: g'
  | S r', row :: g' => row :: on_row r' f g'
  end.

Definition header_fill := SolidFill (lit "1F4E78").
Definition header_font := MkFont (lit "FFFFFF") true.
Definition header_alignment :=
  mkalign (Some (lit "center")) (Some (lit "center")) true.
Definition data_alignment :=
  mkalign (Some (lit "center")) (Some (lit "center")) false.
Definition orange_fill := SolidFill (lit "FFB266").
Definition gray_fill := SolidFill (lit "F0F0F0").

Definition set_header (c : Cell) : Cell :=
  mkcell (value c) header_fill header_font header_alignment ThinBorder.

Definition set_data (c : Cell) : Cell :=
  mkcell (value c) (fill c) (font c) data_alignment ThinBorder.

Definition set_fill (f : PatternFill) (c : Cell) : Cell :=
  mkcell (value c) f (font c) (alignment c) (border c).

(** [for cell in ws[1]: ...]. *)
Definition format_headers (ws : Worksheet) : Worksheet :=
  with_grid (on_row 1 set_header (grid ws)) ws.

(** [for row in ws.iter_rows(min_row=2): for cell in row: ...]. *)
Definition format_data (ws : Worksheet) : Worksheet :=
  with_grid (match grid ws with
             | [] => []
             | h :: data => h :: map (map set_data) data
             end) ws.

Definition add_duplicate_rule (ws : Worksheet) : Worksheet :=
  mkws (grid ws)
       (conditional_formatting ws
        ++ [(lit "B2:B" ++ str_of_nat (max_row ws), orange_fill)])
       (tables ws) (column_widths ws).

(** [for row in range(2, ws.max_row + 1, 2): for cell in ws[row]: ...]. *)
Definition alternate_rows (ws : Worksheet) : Worksheet :=
  with_grid (fold_left (fun g row => on_row row (set_fill gray_fill) g)
                       (range 2 (max_row ws + 1) 2) (grid ws)) ws.

Definition add_table (ws : Worksheet) : Worksheet :=
  mkws (grid ws) (conditional_formatting ws)
       (tables ws
        ++ [(lit "JobSummaryTable", lit "A1:E" ++ str_of_nat (max_row ws))])
       (column_widths ws).

Definition max_column (ws : Worksheet) : nat :=
  fold_right (fun row m => Nat.max (length row) m) 0 (grid ws).

(** [ws.columns]: the cells column by column; a cell the grid lacks is an
    empty one. *)
Definition ws_columns (ws : Worksheet) : list (list Cell) :=
  map (fun j => map (fun row => nth j row (blank XNone)) (grid ws))
      (seq 0 (max_column ws)).

(** The inner loop over the cells of one column. *)
Definition max_length (column : list Cell) : nat :=
  fold_left (fun m c =>
               if m <? length (str_of_value (value c))
               then length (str_of_value (value c)) else m)
            column 0.

Definition adjusted_width (column : list Cell) : nat := max_length column + 2.

Definition adjust_column_widths (ws : Worksheet) : Worksheet :=
  mkws (grid ws) (conditional_formatting ws) (tables ws)
       (map adjusted_width (ws_columns ws)).

Definition create_excel_report (df : DataFrame) : Worksheet :=
  adjust_column_widths
    (add_table
       (alternate_rows
          (add_duplicate_rule
             (format_data (format_headers (load_workbook df)))))).

End Report.

(* ================================================================== *)
(** * app.py: the table, the filters and the per-vessel breakdown      *)
(* ================================================================== *)

Module App.
Import Py Pandas Utils Report.

(** [summary_data] after the loop over [uploaded_files]. *)
Fixpoint summary_data (uploaded_files : list file) : list dict :=
  match uploaded_files with
  | [] => []
  | f :: rest => process_csv_file f :: summary_data rest
  end.

Definition has_key (k : str) (ks : list str) : bool := existsb (Py.eqb k) ks.

Definition add_key (acc : list str) (k : str) : list str :=
  if has_key k acc then acc else acc ++ [k].

(** The keys of the records in the order they first appear. *)
Definition all_keys (records : list dict) : list str :=
  fold_left (fun acc d => fold_left add_key (map fst d) acc) records [].

Definition get_or_nan (d : dict) (k : str) : pyval :=
  match get k d with
  | Some v => v
  | None => PNaN
  end.

(** [pd.DataFrame(summary_data)]. *)
Definition DataFrame_of (records : list dict) : DataFrame :=
  let cols := all_keys records in
  mkdf cols (map (fun d => map (get_or_nan d) cols) records).

(** The value of column [c] in a row; the column is one of the table. *)
Definition field (df : DataFrame) (c : str) (row : list pyval) : pyval :=
  match index_of c (columns df) with
  | Some i => cell i row
  | None => PNaN
  end.

Fixpoint set_nth (i : nat) (v : pyval) (row : list pyval) : list pyval :=
  match i, row with
  | O, _ :: row' => v :: row'
  | O, [] => [v]
  | S i', x :: row' => x :: set_nth i' v row'
  | S i', [] => PNaN :: set_nth i' v []
  end.

(** [df[c] = f(df[c])] for an existing column: the column keeps its
    place. *)
Definition map_column (c : str) (f : pyval -> pyval) (df : DataFrame)
  : DataFrame :=
  match index_of c (columns df) with
  | Some i => mkdf (columns df)
                   (map (fun row => set_nth i (f (cell i row)) row) (rows df))
  | None => df
  end.

(** ** Dates *)

Definition digit_value (c : ascii) : Z := Z.of_nat (code c - 48).

Definition number (s : str) : Z :=
  fold_left (fun acc c => (10 * acc + digit_value c)%Z) s 0%Z.

Definition is_leap (y : Z) : bool :=
  ((y mod 4 =? 0) && negb (y mod 100 =? 0) || (y mod 400 =? 0))%Z.

Definition days_in_month (y m : Z) : Z :=
  if (m =? 2)%Z then (if is_leap y then 29 else 28)%Z
  else if ((m =? 4) || (m =? 6) || (m =? 9) || (m =? 11))%Z then 30%Z
  else 31%Z.

Definition date_ltb (a b : date) : bool :=
  ((year a <? year b)
   || ((year a =? year b)
       && ((month a <? month b)
           || ((month a =? month b) && (day a <? day b)))))%Z.

Definition date_leb (a b : date) : bool := negb (date_ltb b a).

(** The days a [datetime64[ns]] column can hold. *)
Definition in_bounds (d : date) : bool :=
  date_leb (mkdate 1677 9 22) d && date_leb d (mkdate 2262 4 11).

(** [pd.to_datetime(s, format='%d-%m-%Y', errors='coerce')] on one value
    of the date column.  The column holds ["Unknown"] or two digits, a
    dash, two digits, a dash and four digits; a text of any other shape
    reads as NaT here. *)
Definition to_datetime (v : pyval) : pyval :=
  match v with
  | PStr [d1; d2; s1; m1; m2; s2; y1; y2; y3; y4] =>
      if forallb is_digit [d1; d2; m1; m2; y1; y2; y3; y4]
         && eqb_char s1 "-" && eqb_char s2 "-"
      then
        let d := number [d1; d2] in
        let m := number [m1; m2] in
        let y := number [y1; y2; y3; y4] in
        if ((1 <=? m) && (m <=? 12) && (1 <=? d)
            && (d <=? days_in_month y m))%Z
           && in_bounds (mkdate y m d)
        then PDate (mkdate y m d) else PNaT
      else PNaT
  | _ => PNaT
  end.

(** [series.dt.strftime('%d-%m-%Y')] on one value. *)
Definition strftime (v : pyval) : pyval :=
  match v with
  | PDate d =>
      PStr (pad 2 (str_of_int (day d)) ++ lit "-"
            ++ pad 2 (str_of_int (month d)) ++ lit "-"
            ++ pad 4 (str_of_int (year d)))
  | _ => PNaN
  end.

(** The table of the app: the records stacked, the date column coerced. *)
Definition build_table (uploaded_files : list file) : DataFrame :=
  map_column Date_Extracted to_datetime
             (DataFrame_of (summary_data uploaded_files)).

(** ** Filters *)

(** [series.isin(values)]. *)
Definition isin (values : list pyval) (v : pyval) : bool :=
  existsb (same v) values.

(** [series.dt.date >= start_date] and [<= end_date] on one value: a
    missing timestamp compares false. *)
Definition date_ge (v : pyval) (start_date : date) : bool :=
  match v with
  | PDate d => date_leb start_date d
  | _ => false
  end.

Definition date_le (v : pyval) (end_date : date) : bool :=
  match v with
  | PDate d => date_leb d end_date
  | _ => false
  end.

Definition select (mask : list pyval -> bool) (df : DataFrame) : DataFrame :=
  mkdf (columns df) (filter mask (rows df)).

(** Lines 99-107: [vessel_filter] is the list of the multiselect,
    [date_range] the tuple of the date input. *)
Definition apply_filters (vessel_filter : list pyval)
           (date_range : list date) (df : DataFrame) : DataFrame :=
  let by_vessel :=
    match vessel_filter with
    | _ :: _ =>
        select (fun row => isin vessel_filter (field df Vessel_Name row)) df
    | [] => df
    end in
  match date_range with
  | [start_date; end_date] =>
      select (fun row =>
                date_ge (field by_vessel Date_Extracted row) start_date
                && date_le (field by_vessel Date_Extracted row) end_date)
             by_vessel
  | _ => by_vessel
  end.

(** ** Per-vessel breakdown *)

(** [series.unique()]: first occurrences, the missing value once. *)
Fixpoint unique_acc (seen s : list pyval) : list pyval :=
  match s with
  | [] => []
  | v :: s' =>
      if existsb (same v) seen then unique_acc seen s'
      else v :: unique_acc (v :: seen) s'
  end.

Definition unique (s : list pyval) : list pyval := unique_acc [] s.

(** [a < b]; [None] is the [TypeError] of an unordered pair of types.
    A NaN is a float: it compares false with numbers and raises against a
    text. *)
Definition py_lt (a b : pyval) : option bool :=
  match a, b with
  | PStr x, PStr y => Some (Py.ltb x y)
  | PInt x, PInt y => Some (x <? y)%Z
  | PInt _, PNaN | PNaN, PInt _ | PNaN, PNaN => Some false
  | PDate x, PDate y => Some (date_ltb x y)
  | PDate _, PNaT | PNaT, PDate _ | PNaT, PNaT => Some false
  | _, _ => None
  end.

(** Insertion of an element that stood before those of the ascending
    list [l]: it goes before the first one that is not smaller. *)
Fixpoint insert (x : pyval) (l : list pyval) : option (list pyval) :=
  match l with
  | [] => Some [x]
  | y :: l' =>
      match py_lt y x with
      | Some true =>
          match insert x l' with
          | Some r => Some (y :: r)
          | None => None
          end
      | Some false => Some (x :: l)
      | None => None
      end
  end.

(** [sorted(l)], a stable sort; [None] when a comparison raises.  On a
    list whose values are totally ordered by [<] this is the ascending
    stable order, which is what CPython returns, and a list of one value
    comes back as it is.  With a NaN beside numbers [<] is not an order and
    the result of CPython depends on its merge strategy; the theorems use
    [sorted] on lists without missing values or on a single value. *)
Fixpoint sorted (l : list pyval) : option (list pyval) :=
  match l with
  | [] => Some []
  | x :: l' =>
      match sorted l' with
      | Some r => insert x r
      | None => None
      end
  end.

Definition is_missing (v : pyval) : bool :=
  match v with
  | PNaN | PNaT => true
  | _ => false
  end.

Section SortValues.
Variable key : list pyval -> pyval.

(** Insertion of a row that stood before those of the descending list:
    it goes before the first row whose key is not greater. *)
Fixpoint insert_desc (x : list pyval) (l : list (list pyval))
  : option (list (list pyval)) :=
  match l with
  | [] => Some [x]
  | y :: l' =>
      match py_lt (key x) (key y) with
      | Some true =>
          match insert_desc x l' with
          | Some r => Some (y :: r)
          | None => None
          end
      | Some false => Some (x :: l)
      | None => None
      end
  end.

Fixpoint sort_desc (l : list (list pyval)) : option (list (list pyval)) :=
  match l with
  | [] => Some []
  | x :: l' =>
      match sort_desc l' with
      | Some r => insert_desc x r
      | None => None
      end
  end.
End SortValues.

(** [df.sort_values(c, ascending=False)]: the rows with a key in
    descending order of the key, then the rows whose key is missing.
    Rows with equal keys keep their order. *)
Definition sort_values_desc (c : str) (df : DataFrame) : option DataFrame :=
  let key := field df c in
  match sort_desc key (filter (fun row => negb (is_missing (key row)))
                              (rows df)) with
  | Some present =>
      Some (mkdf (columns df)
                 (present ++ filter (fun row => is_missing (key row))
                                    (rows df)))
  | None => None
  end.

(** [df[[c1, ..., cn]]]. *)
Definition project (cols : list str) (df : DataFrame) : DataFrame :=
  mkdf cols (map (fun row => map (fun c => field df c row) cols) (rows df)).

Definition column (df : DataFrame) (c : str) : list pyval :=
  map (field df c) (rows df).

(** What one expander shows: the vessel, the number of its files, the two
    sums of its header line and the table under it. *)
Record expander :=
  mkexp { vessel : pyval; files : nat;
          total_jobs : option Z; new_jobs : option Z;
          details : DataFrame }.

Definition filtered_df_display (filtered_df : DataFrame) : DataFrame :=
  map_column Date_Extracted strftime filtered_df.

(** [filtered_df_display[filtered_df_display['Vessel Name'] == vessel]]. *)
Definition vessel_data (display : DataFrame) (v : pyval) : DataFrame :=
  select (fun row => py_eq (field display Vessel_Name row) v) display.

Definition expander_of (display : DataFrame) (v : pyval) : option expander :=
  let data := vessel_data display v in
  match sort_values_desc Date_Extracted
          (project [File_Name; Date_Extracted; Total_Count_of_Jobs;
                    New_Job_Count] data) with
  | Some t =>
      Some (mkexp v (len data)
                  (Report.sum (column data Total_Count_of_Jobs))
                  (Report.sum (column data New_Job_Count)) t)
  | None => None
  end.

Fixpoint expanders (display : DataFrame) (vs : list pyval)
  : option (list expander) :=
  match vs with
  | [] => Some []
  | v :: vs' =>
      match expander_of display v, expanders display vs' with
      | Some e, Some es => Some (e :: es)
      | _, _ => None
      end
  end.

(** The loop of lines 153-169; [None] when [sorted] or a sort of the
    rows raises. *)
Definition per_vessel_breakdown (filtered_df : DataFrame)
  : option (list expander) :=
  match sorted (unique (column filtered_df Vessel_Name)) with
  | Some vs => expanders (filtered_df_display filtered_df) vs
  | None => None
  end.

(** The report of the download button. *)
Definition excel_report (filtered_df : DataFrame) : Worksheet :=
  create_excel_report (filtered_df_display filtered_df).

End App.

(* ================================================================== *)
(** * The properties the specification states                          *)
(* ================================================================== *)

Module Spec.
Import Py Pandas Utils Report App.

(** ** Dates in file names *)

(** The character before position [k] of [s], [prev] standing before the
    string. *)
Definition prev_char (prev : option ascii) (s : str) (k : nat)
  : option ascii :=
  match k with
  | O => prev
  | S k' => nth_error s k'
  end.

Definition edge_ok (edge : ascii -> bool) (c : option ascii) : Prop :=
  match c with
  | Some x => edge x = true
  | None => True
  end.

(** [s] splits into [pre], a run of eight digits and [post], the run
    bounded on each side by the end of the string or by a character of
    the class [edge]. *)
Definition bounded_run (edge : ascii -> bool) (s pre run post : str) : Prop :=
  s = pre ++ run ++ post
  /\ length run = 8
  /\ Forall (fun c => is_digit c = true) run
  /\ edge_ok edge (hd_error (rev pre))
  /\ edge_ok edge (hd_error post).

(** The leftmost such run. *)
Definition first_run (edge : ascii -> bool) (s pre run post : str) : Prop :=
  bounded_run edge s pre run post
  /\ forall pre' run' post',
       bounded_run edge s pre' run' post' -> length pre <= length pre'.

Definition non_digit (c : ascii) : bool := negb (is_digit c).
Definition non_word (c : ascii) : bool := negb (is_word c).

(** [DD-MM-YYYY] from a run [DDMMYYYY]. *)
Definition dd_mm_yyyy (run : str) : str :=
  firstn 2 run ++ lit "-" ++ firstn 2 (skipn 2 run) ++ lit "-"
  ++ skipn 4 run.

(** [extractedDate] of the record of a file. *)
Definition extracted_date (f : file) : option pyval :=
  get Date_Extracted (process_csv_file f).

(** ** Counts of one file *)

Definition all_space (s : str) : Prop :=
  Forall (fun c => is_space c = true) s.

(** The text of a status value is "New" once the whitespace around it is
    taken away. *)
Definition trimmed_is (t : str) (v : pyval) : Prop :=
  exists l r, all_space l /\ all_space r /\ astype_str v = l ++ t ++ r.

(** The same as a test, for counting rows. *)
Definition is_new_job (v : pyval) : bool :=
  Py.eqb (strip (astype_str v)) (lit "New").

(** No header names a status column. *)
Definition no_column_contains (sub : str) (df : DataFrame) : Prop :=
  forall c, In c (columns df) -> contains sub (lower c) = false.

(** The file is processed without an exception: it has a name, the CSV
    reader returns a table, and the table has a first row to take the
    vessel name from unless it has no vessel column. *)
Definition processed (f : file) (s : str) (df : DataFrame) : Prop :=
  name f = Some s /\ read_csv f = Some df
  /\ (sniff (lit "vessel") df = None \/ rows df <> []).

(** ** The rendered spreadsheet *)

(** The values of the first row of the sheet. *)
Definition header_row (ws : Worksheet) : list xval :=
  map value (hd [] (grid ws)).

(** The cells of data row [k], counted from 1 at the first data row: the
    header is row 0 of the grid. *)
Definition data_row (ws : Worksheet) (k : nat) : option (list Cell) :=
  match k with
  | O => None
  | S _ => nth_error (grid ws) k
  end.

(** The column order the code produces and the one the specification
    lists. *)
Definition columns_of_code : list str :=
  [File_Name; Vessel_Name; Total_Count_of_Jobs; New_Job_Count; Date_Extracted].

Definition columns_of_spec : list str :=
  [File_Name; Vessel_Name; Date_Extracted; Total_Count_of_Jobs; New_Job_Count].

(** A date cell of the sheet holds a display text or nothing, never a
    date value. *)
Definition display_value (v : xval) : Prop :=
  v = XNone \/ exists s, v = XStr s.

(** Number of characters of [str(cell.value)]. *)
Definition value_length (c : Cell) : nat := length (str_of_value (value c)).

(** Number of characters shown in a cell: an empty cell shows none. *)
Definition text_length (c : Cell) : nat :=
  match value c with
  | XNone => 0
  | v => length (str_of_value v)
  end.

(** Every header has at least four characters and no row has more cells
    than there are headers. *)
Definition headed (df : DataFrame) : Prop :=
  (forall c, In c (columns df) -> 4 <= length c)
  /\ (forall row, In row (rows df) -> length row <= length (columns df)).

(** ** Filters *)

(** The vessel test: skipped when no vessel is selected. *)
Definition vessel_test (vessel_filter : list pyval) (df : DataFrame)
           (row : list pyval) : bool :=
  match vessel_filter with
  | [] => true
  | _ => isin vessel_filter (field df Vessel_Name row)
  end.

(** The date of the row lies in the inclusive range; a null date lies in
    none. *)
Definition in_range (start_date end_date : date) (v : pyval) : bool :=
  match v with
  | PDate d => date_leb start_date d && date_leb d end_date
  | _ => false
  end.

(** The date test: skipped unless the range has its two ends. *)
Definition date_test (date_range : list date) (df : DataFrame)
           (row : list pyval) : bool :=
  match date_range with
  | [start_date; end_date] =>
      in_range start_date end_date (field df Date_Extracted row)
  | _ => true
  end.

(** ** Orders of the per-vessel display *)

Definition is_text (v : pyval) : Prop := exists s, v = PStr s.

(** [a] does not come after [b] in the order of [<]. *)
Definition not_after (a b : pyval) : Prop := py_lt b a = Some false.

(** Vessel names in ascending order. *)
Definition ascending (l : list pyval) : Prop := Sorted not_after l.

(** Rows in descending order of their key. *)
Definition descending (key : list pyval -> pyval) (l : list (list pyval))
  : Prop :=
  Sorted (fun x y => not_after (key y) (key x)) l.

(** ** Rollups *)

(** The sum of the per-vessel sums, when each of them is an integer. *)
Fixpoint sum_over (sums : list (option Z)) : option Z :=
  match sums with
  | [] => Some 0%Z
  | Some z :: rest =>
      match sum_over rest with
      | Some t => Some (z + t)%Z
      | None => None
      end
  | None :: _ => None
  end.

(** A row of the display table: the row of the filtered table with its
    date formatted. *)
Definition display_row (df : DataFrame) (row : list pyval) : list pyval :=
  match index_of Date_Extracted (columns df) with
  | Some i => set_nth i (strftime (cell i row)) row
  | None => row
  end.

Definition is_int (v : pyval) : Prop := exists z, v = PInt z.

(** [z + total], when there is a total. *)
Definition add_to (z : Z) (total : option Z) : option Z :=
  match total with
  | Some t => Some (z + t)%Z
  | None => None
  end.

(** No vessel name of the table is missing. *)
Definition vessels_present (df : DataFrame) : Prop :=
  forall row, In row (rows df) ->
              is_missing (field df Vessel_Name row) = false.

End Spec.

(* ================================================================== *)
(** * utils.py and app.py: the charts and the metrics                  *)
(* ================================================================== *)

(** A chart is modelled by the data the code hands to the plotting
    library: the lists behind [x], [y], [ticktext] and [tickvals]. *)
Module Charts.
Import Py Pandas Utils Report App.

(** [f"{v}"]: the text an f-string gives a value. *)
Definition format_value (v : pyval) : str :=
  match v with
  | PStr s => s
  | PInt z => str_of_int z
  | PNaN => lit "nan"
  | PDate d => iso_date d ++ lit " 00:00:00"
  | PNaT => lit "NaT"
  end.

Section SortAscending.
Variable key : list pyval -> pyval.

(** Insertion of a row that stood before those of the ascending list: it
    goes before the first row whose key is not smaller. *)
Fixpoint insert_asc (x : list pyval) (l : list (list pyval))
  : option (list (list pyval)) :=
  match l with
  | [] => Some [x]
  | y :: l' =>
      match py_lt (key y) (key x) with
      | Some true =>
          match insert_asc x l' with
          | Some r => Some (y :: r)
          | None => None
          end
      | Some false => Some (x :: l)
      | None => None
      end
  end.

Fixpoint sort_asc (l : list (list pyval)) : option (list (list pyval)) :=
  match l with
  | [] => Some []
  | x :: l' =>
      match sort_asc l' with
      | Some r => insert_asc x r
      | None => None
      end
  end.
End SortAscending.

(** [df.sort_values(c)]: the rows with a key in ascending order of the
    key, then the rows whose key is missing.  Rows with equal keys keep
    their order here; pandas does not fix it, and nothing proved below
    depends on it. *)
Definition sort_values (c : str) (df : DataFrame) : option DataFrame :=
  let key := field df c in
  match sort_asc key (filter (fun row => negb (is_missing (key row)))
                             (rows df)) with
  | Some present =>
      Some (mkdf (columns df)
                 (present ++ filter (fun row => is_missing (key row))
                                    (rows df)))
  | None => None
  end.

(** The label of a bar: [f"{row['Vessel Name']}{sep}{row['File Name']}"]. *)
Definition bar_label (sep : str) (df : DataFrame) (row : list pyval) : str :=
  format_value (field df Vessel_Name row) ++ sep
  ++ format_value (field df File_Name row).

Record bar_chart :=
  mkbars { total_x : list str; total_y : list pyval;
           new_x : list str; new_y : list pyval;
           ticktext : list str; tickvals : list nat }.

(** [create_vessel_job_distribution_chart(df)]; [None] when the sort
    raises. *)
Definition create_vessel_job_distribution_chart (df : DataFrame)
  : option bar_chart :=
  match sort_values Date_Extracted df with
  | Some df =>
      Some (mkbars (map (bar_label (lit " - ") df) (rows df))
                   (column df Total_Count_of_Jobs)
                   (map (bar_label (lit " - ") df) (rows df))
                   (column df New_Job_Count)
                   (map (bar_label (lit "<br>") df) (rows df))
                   (seq 0 (len df)))
  | None => None
  end.





(** The two metrics of lines 114-115: [len(filtered_df)] and
    [filtered_df['Vessel Name'].nunique()], which leaves the missing value
    out. *)
Definition total_files (filtered_df : DataFrame) : nat := len filtered_df.

Definition total_vessels (filtered_df : DataFrame) : nat :=
  length (filter (fun v => negb (is_missing v))
                 (unique (column filtered_df Vessel_Name))).

End Charts.

(* ================================================================== *)
(** * Further properties of the code                                   *)
(* ================================================================== *)

Module Props.
Import Py Pandas Utils Report App Spec Charts.

(** A text of the shape DD-MM-YYYY: digits and two dashes. *)
Definition date_shaped (t : str) : Prop :=
  exists d1 d2 m1 m2 y1 y2 y3 y4,
    t = [d1; d2; "-"%char; m1; m2; "-"%char; y1; y2; y3; y4]
    /\ forallb is_digit [d1; d2; m1; m2; y1; y2; y3; y4] = true.

(** The row the table holds for a file. *)
Definition row_of (f : file) : list pyval :=
  let d := process_csv_file f in
  [get_or_nan d File_Name; get_or_nan d Vessel_Name;
   get_or_nan d Total_Count_of_Jobs; get_or_nan d New_Job_Count;
   to_datetime (get_or_nan d Date_Extracted)].

(** A row of the table of the app with two integer counts, the new jobs
    (fourth cell) within the total (third cell). *)
Definition counted (row : list pyval) : Prop :=
  exists n t, cell 3 row = PInt n /\ cell 2 row = PInt t /\ (0 <= n <= t)%Z.

(** The four columns of the table under an expander. *)
Definition detail_columns : list str :=
  [File_Name; Date_Extracted; Total_Count_of_Jobs; New_Job_Count].

(** A value is a timestamp. *)
Definition is_date (v : pyval) : Prop := exists d, v = PDate d.

(** The date column of the table holds timestamps and missing
    timestamps, as [to_datetime] leaves it. *)
Definition dates_coerced (df : DataFrame) : Prop :=
  forall row, In row (rows df) ->
              is_date (field df Date_Extracted row)
              \/ field df Date_Extracted row = PNaT.

(** Rows in ascending order of their key. *)
Definition ascending_by (key : list pyval -> pyval) (l : list (list pyval))
  : Prop :=
  Sorted (fun x y => not_after (key x) (key y)) l.

(** The insertion sort that [sorted] and the two [sort_values] share:
    [stays y x] tells whether [y], already placed, stays before [x]. *)
Section Insertion.
Variable A : Type.
Variable stays : A -> A -> option bool.

Fixpoint insert_by (x : A) (l : list A) : option (list A) :=
  match l with
  | [] => Some [x]
  | y :: l' =>
      match stays y x with
      | Some true =>
          match insert_by x l' with
          | Some r => Some (y :: r)
          | None => None
          end
      | Some false => Some (x :: l)
      | None => None
      end
  end.

Fixpoint sort_by (l : list A) : option (list A) :=
  match l with
  | [] => Some []
  | x :: l' =>
      match sort_by l' with
      | Some r => insert_by x r
      | None => None
      end
  end.

(** [a] may stand right before [b] in a sorted list. *)
Definition in_order (a b : A) : Prop := stays b a = Some false.
End Insertion.
Arguments insert_by {A} stays x l.
Arguments sort_by {A} stays l.
Arguments in_order {A} stays a b.

(** The ten digits. *)
Definition digit_chars : list ascii :=
  ["0"; "1"; "2"; "3"; "4"; "5"; "6"; "7"; "8"; "9"]%char.

(** [pad] and [str_of_int] give back the digits [number] has read, for
    every text of [n] digits out of [ds]. *)
Fixpoint digits_round_trip (n : nat) (ds : list ascii) (acc : str) : bool :=
  match n with
  | O => Py.eqb (pad (length acc) (str_of_int (number acc))) acc
  | S n' => forallb (fun c => digits_round_trip n' ds (acc ++ [c])) ds
  end.

End Props.

(* ================================================================== *)
(** * Proofs: the date of a file name                                  *)
(* ================================================================== *)

Import Py Pandas Utils Report App Spec Charts Props.

Lemma digits_some n : forall s g rest,
  Re.digits n s = Some (g, rest) ->
  s = g ++ rest /\ length g = n /\ Forall (fun c => is_digit c = true) g.
Proof.
  induction n as [|n IH]; intros s g rest H; simpl in H.
  - inversion H; subst. repeat split; constructor.
  - destruct s as [|c s']; [discriminate|].
    destruct (is_digit c) eqn:Hc; [|discriminate].
    destruct (Re.digits n s') as [[g' r']|] eqn:Hd; [|discriminate].
    inversion H; subst. destruct (IH _ _ _ Hd) as (-> & Hl & Hf).
    repeat split; simpl; auto.
Qed.

Lemma digits_app n : forall g rest,
  length g = n -> Forall (fun c => is_digit c = true) g ->
  Re.digits n (g ++ rest) = Some (g, rest).
Proof.
  induction n as [|n IH]; intros g rest Hl Hf.
  - destruct g; [reflexivity|discriminate].
  - destruct g as [|c g]; [discriminate|]. inversion Hf; subst.
    simpl. rewrite H1. rewrite IH; auto.
Qed.

Lemma digit_is_word c : is_digit c = true -> is_word c = true.
Proof. intros H. unfold is_word. rewrite H. reflexivity. Qed.

Lemma prev_char_cons prev c s k :
  prev_char prev (c :: s) (S k) = prev_char (Some c) s k.
Proof. destruct k; reflexivity. Qed.

Lemma prev_char_app pre rest :
  prev_char None (pre ++ rest) (length pre) = hd_error (rev pre).
Proof.
  destruct pre as [|c pre] using rev_ind; [reflexivity|].
  rewrite length_app, rev_app_distr. simpl.
  replace (length pre + 1) with (S (length pre)) by lia. simpl.
  rewrite <- app_assoc. rewrite nth_error_app2 by lia.
  rewrite Nat.sub_diag. reflexivity.
Qed.

Lemma match_here_nil prev : Re.match_here prev [] = None.
Proof. unfold Re.match_here. destruct (Re.word_boundary _ _); reflexivity. Qed.

Lemma search_from_some : forall s prev g,
  Re.search_from prev s = Some g ->
  exists k, k <= length s
    /\ Re.match_here (prev_char prev s k) (skipn k s) = Some g
    /\ forall j, j < k ->
         Re.match_here (prev_char prev s j) (skipn j s) = None.
Proof.
  induction s as [|c s IH]; intros prev g H; simpl in H.
  - rewrite match_here_nil in H. discriminate.
  - destruct (Re.match_here prev (c :: s)) as [g0|] eqn:Hm.
    + inversion H; subst. exists 0. repeat split; auto; [simpl; lia|].
      intros j Hj; lia.
    + destruct (IH _ _ H) as (k & Hk & Hmk & Hlt).
      exists (S k). rewrite prev_char_cons. repeat split; auto.
      * simpl; lia.
      * intros [|j] Hj; [exact Hm|].
        rewrite prev_char_cons. apply Hlt. lia.
Qed.

Lemma search_from_none : forall s prev,
  Re.search_from prev s = None ->
  forall k, Re.match_here (prev_char prev s k) (skipn k s) = None.
Proof.
  induction s as [|c s IH]; intros prev H k; simpl in H.
  - destruct k; simpl; [apply match_here_nil|].
    apply match_here_nil.
  - destruct (Re.match_here prev (c :: s)) as [g0|] eqn:Hm; [discriminate|].
    destruct k; [exact Hm|]. rewrite prev_char_cons. simpl skipn.
    apply IH; exact H.
Qed.

(** A match at a position is a run of eight digits bounded by non-word
    characters, and conversely. *)
Lemma match_here_run prev run post :
  length run = 8 -> Forall (fun c => is_digit c = true) run ->
  Re.is_word_at prev = false -> Re.is_word_at (hd_error post) = false ->
  Re.match_here prev (run ++ post)
  = Some (firstn 2 run, firstn 2 (skipn 2 run), skipn 4 run).
Proof.
  intros Hl Hf Hp Hn.
  do 8 (destruct run as [|? run]; [discriminate|]).
  destruct run; [|discriminate].
  repeat match goal with
         | H : Forall _ (_ :: _) |- _ => inversion H; clear H; subst
         end.
  repeat match goal with
         | H : is_digit ?c = true |- _ =>
             pose proof (digit_is_word _ H); revert H
         end.
  intros.
  unfold Re.match_here.
  change ([a; a0; a1; a2; a3; a4; a5; a6] ++ post)
    with ([a; a0] ++ [a1; a2] ++ [a3; a4; a5; a6] ++ post).
  rewrite (digits_app 2 [a; a0]) by (auto using Forall_cons, Forall_nil).
  rewrite (digits_app 2 [a1; a2]) by (auto using Forall_cons, Forall_nil).
  rewrite (digits_app 4 [a3; a4; a5; a6])
    by (auto using Forall_cons, Forall_nil).
  unfold Re.word_boundary. simpl.
  repeat match goal with
         | H : is_word ?c = true |- _ => try rewrite H; clear H
         end.
  rewrite Hp, Hn. reflexivity.
Qed.

Lemma match_here_some prev s g1 g2 g3 :
  Re.match_here prev s = Some (g1, g2, g3) ->
  exists post, s = (g1 ++ g2 ++ g3) ++ post
    /\ length (g1 ++ g2 ++ g3) = 8
    /\ Forall (fun c => is_digit c = true) (g1 ++ g2 ++ g3)
    /\ Re.is_word_at prev = false
    /\ Re.is_word_at (hd_error post) = false
    /\ g1 = firstn 2 (g1 ++ g2 ++ g3)
    /\ g2 = firstn 2 (skipn 2 (g1 ++ g2 ++ g3))
    /\ g3 = skipn 4 (g1 ++ g2 ++ g3).
Proof.
  unfold Re.match_here. intros H.
  destruct (Re.word_boundary prev (hd_error s)) eqn:Hb; [|discriminate].
  destruct (Re.digits 2 s) as [[a s1]|] eqn:H1; [|discriminate].
  destruct (Re.digits 2 s1) as [[b s2]|] eqn:H2; [|discriminate].
  destruct (Re.digits 4 s2) as [[c s3]|] eqn:H3; [|discriminate].
  destruct (Re.word_boundary (hd_error (rev c)) (hd_error s3)) eqn:Hb2;
    [|discriminate].
  inversion H; subst; clear H.
  destruct (digits_some _ _ _ _ H1) as (-> & L1 & F1).
  destruct (digits_some _ _ _ _ H2) as (-> & L2 & F2).
  destruct (digits_some _ _ _ _ H3) as (-> & L3 & F3).
  exists s3.
  do 2 (destruct g1 as [|? g1]; [discriminate|]). destruct g1; [|discriminate].
  do 2 (destruct g2 as [|? g2]; [discriminate|]). destruct g2; [|discriminate].
  do 4 (destruct g3 as [|? g3]; [discriminate|]). destruct g3; [|discriminate].
  repeat match goal with H : Forall _ (_ :: _) |- _ => inversion H; clear H; subst end.
  unfold Re.word_boundary in Hb, Hb2. simpl in Hb, Hb2.
  repeat match goal with
         | H : is_digit ?c = true |- _ =>
             pose proof (digit_is_word _ H); revert H
         end.
  intros.
  repeat match goal with
         | H : is_word ?c = true |- _ =>
             try rewrite H in Hb; try rewrite H in Hb2; clear H
         end.
  repeat split; auto.
  - repeat constructor; auto.
  - destruct (Re.is_word_at prev); [discriminate|reflexivity].
  - destruct (Re.is_word_at (hd_error s3)); [discriminate|reflexivity].
Qed.

Lemma edge_ok_non_word c :
  edge_ok non_word c <-> Re.is_word_at c = false.
Proof.
  destruct c as [x|]; simpl; unfold non_word; [|tauto].
  destruct (is_word x); simpl; split; congruence.
Qed.

Lemma skipn_app_length {A} (l1 l2 : list A) : skipn (length l1) (l1 ++ l2) = l2.
Proof. induction l1; simpl; auto. Qed.

(** A match of [search] at position [k] is a run bounded by non-word
    characters with [k] characters before it. *)
Lemma match_at_bounded_run s k g1 g2 g3 :
  k <= length s ->
  Re.match_here (prev_char None s k) (skipn k s) = Some (g1, g2, g3) ->
  exists post, bounded_run non_word s (firstn k s) (g1 ++ g2 ++ g3) post
    /\ g1 = firstn 2 (g1 ++ g2 ++ g3)
    /\ g2 = firstn 2 (skipn 2 (g1 ++ g2 ++ g3))
    /\ g3 = skipn 4 (g1 ++ g2 ++ g3).
Proof.
  intros Hk H.
  destruct (match_here_some _ _ _ _ _ H) as (post & Hs & Hl & Hf & Hp & Hn & E).
  exists post. split; [|exact E].
  assert (Hsplit : s = firstn k s ++ (g1 ++ g2 ++ g3) ++ post).
  { rewrite <- Hs. symmetry. apply firstn_skipn. }
  repeat split; auto.
  - apply edge_ok_non_word.
    assert (Hlen : length (firstn k s) = k) by (rewrite length_firstn; lia).
    rewrite <- (prev_char_app (firstn k s) (skipn k s)).
    rewrite firstn_skipn, Hlen. exact Hp.
  - apply edge_ok_non_word. exact Hn.
Qed.

Lemma bounded_run_match_at s pre run post :
  bounded_run non_word s pre run post ->
  Re.match_here (prev_char None s (length pre)) (skipn (length pre) s)
  = Some (firstn 2 run, firstn 2 (skipn 2 run), skipn 4 run).
Proof.
  intros (Hs & Hl & Hf & Hp & Hn). subst s.
  rewrite prev_char_app, skipn_app_length.
  apply match_here_run; auto; apply edge_ok_non_word; assumption.
Qed.

Lemma search_first_run s pre run post :
  first_run non_word s pre run post ->
  Re.search s = Some (firstn 2 run, firstn 2 (skipn 2 run), skipn 4 run).
Proof.
  intros [Hrun Hmin]. pose proof (bounded_run_match_at _ _ _ _ Hrun) as Hm.
  unfold Re.search.
  destruct (Re.search_from None s) as [[[g1 g2] g3]|] eqn:Hs.
  - destruct (search_from_some _ _ _ Hs) as (k & Hk & Hmk & Hlt).
    destruct (match_at_bounded_run _ _ _ _ _ Hk Hmk) as (post' & Hb & _).
    apply Hmin in Hb. rewrite length_firstn in Hb.
    assert (Hle : length pre <= k) by lia.
    destruct (Nat.eq_dec (length pre) k) as [<-|Hne].
    + rewrite Hm in Hmk. congruence.
    + rewrite Hlt in Hm by lia. discriminate.
  - rewrite (search_from_none _ _ Hs) in Hm. discriminate.
Qed.

Lemma search_no_run s :
  (forall pre run post, ~ bounded_run non_word s pre run post) ->
  Re.search s = None.
Proof.
  intros Hno. unfold Re.search.
  destruct (Re.search_from None s) as [[[g1 g2] g3]|] eqn:Hs; [|reflexivity].
  destruct (search_from_some _ _ _ Hs) as (k & Hk & Hmk & _).
  destruct (match_at_bounded_run _ _ _ _ _ Hk Hmk) as (post' & Hb & _).
  exfalso. eapply Hno; eauto.
Qed.

(** The date field holds [formatted_date] on both ways out of the call. *)
Lemma extracted_date_formatted f s :
  name f = Some s ->
  extracted_date f = Some (PStr (format_date (Re.search s))).
Proof.
  intros Hn. unfold extracted_date, process_csv_file, try_block.
  rewrite Hn.
  destruct (read_csv f) as [df|]; [|reflexivity].
  destruct (if truthy (sniff (lit "vessel") df) then _ else _);
    [|reflexivity].
  destruct (if truthy (sniff (lit "status") df) then _ else _); reflexivity.
Qed.

(** C1 (amended).  The date of a file name comes from the first run of
    eight digits bounded on each side by the end of the name or by a
    non-word character (anything but a letter, a digit or an underscore):
    it is the run split as DD-MM-YYYY, whatever the digits are; a name with
    no such run has the date "Unknown". *)
Theorem extracted_date_word_bounded f s :
  name f = Some s ->
  (forall pre run post,
      first_run non_word s pre run post ->
      extracted_date f = Some (PStr (dd_mm_yyyy run)))
  /\ ((forall pre run post, ~ bounded_run non_word s pre run post) ->
      extracted_date f = Some (PStr (lit "Unknown"))).
Proof.
  intros Hn. rewrite (extracted_date_formatted _ _ Hn). split.
  - intros pre run post Hfirst.
    rewrite (search_first_run _ _ _ _ Hfirst). reflexivity.
  - intros Hno. rewrite (search_no_run _ Hno). reflexivity.
Qed.

Lemma extracted_date_word_bounded_witness :
  extracted_date (mkfile (Some (lit "99999999.csv")) None)
  = Some (PStr (lit "99-99-9999"))
  /\ extracted_date (mkfile (Some (lit "a.csv")) None)
     = Some (PStr (lit "Unknown")).
Proof.
  split.
  - apply (proj1 (extracted_date_word_bounded
                    (mkfile (Some (lit "99999999.csv")) None)
                    (lit "99999999.csv") eq_refl)
                 [] (lit "99999999") (lit ".csv")).
    split.
    + repeat split; try reflexivity. repeat constructor.
    + intros; apply Nat.le_0_l.
  - apply (proj2 (extracted_date_word_bounded
                    (mkfile (Some (lit "a.csv")) None)
                    (lit "a.csv") eq_refl)).
    intros pre run post (Hs & Hl & _).
    apply (f_equal (@length ascii)) in Hs.
    rewrite !length_app, Hl in Hs. simpl in Hs. lia.
Defined.

(** C1 as stated fails: in "01022024_jobs.csv" the run 01022024 is bounded
    by the start of the name and by an underscore, which is not a digit,
    yet the date is "Unknown". *)
Lemma extracted_date_non_digit_bound_fails :
  ~ (forall f s pre run post,
        name f = Some s ->
        first_run non_digit s pre run post ->
        extracted_date f = Some (PStr (dd_mm_yyyy run))).
Proof.
  intros H.
  specialize (H (mkfile (Some (lit "01022024_jobs.csv"))
                        (Some (mkdf [lit "Vessel"] [[PStr (lit "Titan")]])))
                (lit "01022024_jobs.csv") [] (lit "01022024")
                (lit "_jobs.csv") eq_refl).
  assert (Hfirst : first_run non_digit (lit "01022024_jobs.csv") []
                             (lit "01022024") (lit "_jobs.csv")).
  { split.
    - repeat split; try reflexivity. repeat constructor.
    - intros; apply Nat.le_0_l. }
  specialize (H Hfirst). vm_compute in H. discriminate H.
Qed.

(* ================================================================== *)
(** * Proofs: failures of one file                                     *)
(* ================================================================== *)

(** Both ways out of the call return a record with the five keys, in the
    same order. *)
Lemma record_keys f : map fst (process_csv_file f) = columns_of_code.
Proof.
  unfold process_csv_file, try_block.
  destruct (name f); [|reflexivity].
  destruct (read_csv f) as [df|]; [|reflexivity].
  destruct (if truthy (sniff (lit "vessel") df) then _ else _);
    [|reflexivity].
  destruct (if truthy (sniff (lit "status") df) then _ else _); reflexivity.
Qed.

Lemma summary_data_app l1 l2 :
  summary_data (l1 ++ l2) = summary_data l1 ++ summary_data l2.
Proof. induction l1; simpl; congruence. Qed.

(** What is bound when the [try] block is left by an exception. *)
Lemma raise_locals f l :
  try_block f = Raise l ->
  filename l = name f
  /\ formatted_date l
     = match name f with
       | Some s => Some (format_date (Re.search s))
       | None => None
       end.
Proof.
  unfold try_block. destruct (name f) as [s|].
  - destruct (read_csv f) as [df|].
    + destruct (if truthy (sniff (lit "vessel") df) then _ else _).
      * destruct (if truthy (sniff (lit "status") df) then _ else _);
          [discriminate|].
        intros H; inversion H; auto.
      * intros H; inversion H; auto.
    + intros H; inversion H; auto.
  - intros H; inversion H; auto.
Qed.

(** C2.  Every call returns a record with the five fields.  When the
    processing of a file raises, vessel name and both counts are "Error",
    the file name and the date are those computed before the failure
    ("Unknown" when they were not), and the batch goes on: the records of
    the files before and after are unaffected. *)
Theorem process_csv_file_isolates_failure f l :
  try_block f = Raise l ->
  map fst (process_csv_file f) = columns_of_code
  /\ get Vessel_Name (process_csv_file f) = Some (PStr (lit "Error"))
  /\ get Total_Count_of_Jobs (process_csv_file f) = Some (PStr (lit "Error"))
  /\ get New_Job_Count (process_csv_file f) = Some (PStr (lit "Error"))
  /\ get File_Name (process_csv_file f)
     = Some (match name f with
             | Some s => PStr s
             | None => PStr (lit "Unknown")
             end)
  /\ get Date_Extracted (process_csv_file f)
     = Some (match name f with
             | Some s => PStr (format_date (Re.search s))
             | None => PStr (lit "Unknown")
             end)
  /\ forall before after,
       summary_data (before ++ f :: after)
       = summary_data before ++ process_csv_file f :: summary_data after.
Proof.
  intros H. destruct (raise_locals _ _ H) as [Hf Hd].
  split; [apply record_keys|].
  unfold process_csv_file. rewrite H.
  repeat split; try reflexivity.
  - simpl. rewrite Hf. destruct (name f); reflexivity.
  - simpl. rewrite Hd. destruct (name f); reflexivity.
  - intros. rewrite summary_data_app. simpl.
    unfold process_csv_file. rewrite H. reflexivity.
Qed.

Lemma process_csv_file_isolates_failure_witness :
  get Vessel_Name
      (process_csv_file (mkfile (Some (lit "log 01022024.csv")) None))
  = Some (PStr (lit "Error"))
  /\ get Date_Extracted
         (process_csv_file (mkfile (Some (lit "log 01022024.csv")) None))
     = Some (PStr (lit "01-02-2024")).
Proof.
  pose proof (process_csv_file_isolates_failure
                (mkfile (Some (lit "log 01022024.csv")) None)
                (mklocals (Some (lit "log 01022024.csv"))
                          (Some (lit "01-02-2024")))
                eq_refl) as (_ & Hv & _ & _ & _ & Hd & _).
  split; [exact Hv | exact Hd].
Defined.

(* ================================================================== *)
(** * Proofs: the counts of one file                                   *)
(* ================================================================== *)

Lemma eqb_eq a : forall b, Py.eqb a b = true <-> a = b.
Proof.
  induction a as [|x a IH]; intros [|y b]; simpl; split; intros H;
    try discriminate; try reflexivity.
  - apply andb_true_iff in H as [Hc Hr]. unfold eqb_char in Hc.
    apply Ascii.eqb_eq in Hc. apply IH in Hr. congruence.
  - inversion H; subst. apply andb_true_iff. split.
    + apply Ascii.eqb_refl.
    + apply IH; reflexivity.
Qed.

Lemma lstrip_split s :
  exists l, all_space l /\ s = l ++ lstrip s
            /\ (forall c t, lstrip s = c :: t -> is_space c = false).
Proof.
  induction s as [|c s (l & Hl & Hs & Hh)]; simpl.
  - exists []. repeat split; [constructor|discriminate].
  - destruct (is_space c) eqn:Hc.
    + exists (c :: l). repeat split; [constructor; auto|simpl; congruence|auto].
    + exists []. repeat split; [constructor|].
      intros c' t H; inversion H; subst; auto.
Qed.

Lemma lstrip_app_space l s : all_space l -> lstrip (l ++ s) = lstrip s.
Proof. induction 1 as [|c l Hc _ IH]; simpl; [|rewrite Hc]; auto. Qed.

Lemma all_space_rev l : all_space l -> all_space (rev l).
Proof. unfold all_space. rewrite !Forall_forall. intros H x Hx.
  apply H. apply in_rev. exact Hx. Qed.

(** [strip] undoes the padding of a text that neither starts nor ends with
    a whitespace character. *)
Lemma strip_padded l r a t z :
  all_space l -> all_space r -> is_space a = false -> is_space z = false ->
  strip (l ++ (a :: t ++ [z]) ++ r) = a :: t ++ [z].
Proof.
  intros Hl Hr Ha Hz. unfold strip, rstrip.
  rewrite lstrip_app_space by exact Hl. simpl. rewrite Ha.
  change (a :: (t ++ [z]) ++ r) with ((a :: t ++ [z]) ++ r).
  rewrite rev_app_distr.
  rewrite lstrip_app_space by (apply all_space_rev; exact Hr).
  change (a :: t ++ [z]) with ((a :: t) ++ [z]).
  rewrite rev_app_distr. simpl. rewrite Hz. simpl.
  rewrite rev_app_distr, rev_involutive. reflexivity.
Qed.

Lemma strip_split s :
  exists l r, all_space l /\ all_space r /\ s = l ++ strip s ++ r.
Proof.
  destruct (lstrip_split s) as (l & Hl & Hs & _).
  destruct (lstrip_split (rev (lstrip s))) as (r & Hr & Hrs & _).
  exists l, (rev r). repeat split; auto.
  - apply all_space_rev; exact Hr.
  - unfold strip, rstrip. rewrite <- rev_app_distr, <- Hrs, rev_involutive.
    exact Hs.
Qed.

(** The test used for counting is the property of the specification. *)
Lemma is_new_job_iff v : is_new_job v = true <-> trimmed_is (lit "New") v.
Proof.
  unfold is_new_job, trimmed_is. rewrite eqb_eq. split.
  - intros H. destruct (strip_split (astype_str v)) as (l & r & Hl & Hr & Hs).
    exists l, r. rewrite H in Hs. auto.
  - intros (l & r & Hl & Hr & Hs). rewrite Hs.
    apply (strip_padded l r "N"%char ["e"%char] "w"%char); auto.
Qed.

Lemma eq_sum_count s :
  eq_sum (map (fun v => PStr (strip (astype_str v))) s) (PStr (lit "New"))
  = Z.of_nat (length (filter is_new_job s)).
Proof.
  induction s as [|v s IH]; [reflexivity|].
  cbn [map eq_sum filter]. rewrite IH. unfold is_new_job at 2.
  cbn [py_eq]. destruct (Py.eqb (strip (astype_str v)) (lit "New"));
    cbn [length]; lia.
Qed.

Lemma contains_nonempty sub s :
  sub <> [] -> contains sub s = true -> s <> [].
Proof.
  intros Hsub H ->. destruct sub; [congruence|]. discriminate H.
Qed.

Lemma sniff_some sub df c :
  sub <> [] -> sniff sub df = Some c ->
  truthy (Some c) = true /\ In c (columns df)
  /\ contains sub (lower c) = true.
Proof.
  intros Hsub H. unfold sniff in H. apply find_some in H as [Hin Hc].
  repeat split; auto.
  pose proof (contains_nonempty _ _ Hsub Hc) as Hne.
  destruct c; [exfalso; apply Hne; reflexivity|reflexivity].
Qed.

Lemma sniff_none sub df :
  sniff sub df = None <-> no_column_contains sub df.
Proof.
  unfold sniff, no_column_contains. split.
  - intros H c Hin. exact (find_none _ _ H c Hin).
  - intros H. destruct (find _ _) as [c|] eqn:Hf; [|reflexivity].
    apply find_some in Hf as [Hin Hc]. rewrite (H c Hin) in Hc. discriminate.
Qed.

Lemma index_of_in c cols :
  In c cols -> exists i, index_of c cols = Some i.
Proof.
  induction cols as [|x cols IH]; [intros []|]. intros Hin. simpl.
  destruct (Py.eqb x c) eqn:He; [eauto|].
  destruct Hin as [->|Hin].
  - assert (Py.eqb c c = true) by (apply eqb_eq; reflexivity). congruence.
  - destruct (IH Hin) as [i ->]. eauto.
Qed.

Lemma getitem_field df c :
  In c (columns df) -> getitem df c = Some (map (field df c) (rows df)).
Proof.
  intros Hin. unfold getitem, field.
  destruct (index_of_in _ _ Hin) as [i ->]. reflexivity.
Qed.

Lemma filter_map_length {A B} (p : B -> bool) (g : A -> B) (l : list A) :
  length (filter p (map g l)) = length (filter (fun x => p (g x)) l).
Proof.
  induction l as [|x l IH]; [reflexivity|]. simpl.
  destruct (p (g x)); simpl; congruence.
Qed.

Lemma status_nonempty : lit "status" <> [].
Proof. discriminate. Qed.

Lemma vessel_nonempty : lit "vessel" <> [].
Proof. discriminate. Qed.

(** The vessel name is read without an exception when there is no vessel
    column or there is a first row. *)
Lemma vessel_name_read df :
  sniff (lit "vessel") df = None \/ rows df <> [] ->
  exists v,
    (if truthy (sniff (lit "vessel") df)
     then match getitem df (or_empty (sniff (lit "vessel") df)) with
          | Some s => iloc s 0
          | None => None
          end
     else Some (PStr (lit "Vessel column not found"))) = Some v.
Proof.
  intros H. destruct (sniff (lit "vessel") df) as [c|] eqn:Hs.
  - destruct H as [H|H]; [discriminate|].
    destruct (sniff_some _ _ _ vessel_nonempty Hs) as (Ht & Hin & _).
    rewrite Ht. simpl or_empty. rewrite (getitem_field _ _ Hin).
    destruct (rows df) as [|row rest]; [congruence|]. simpl. eauto.
  - simpl. eauto.
Qed.

(** C5 (amended).  For a file processed without an exception, the total is
    the number of rows of the table; when a status column is sniffed, the
    new-job count is the number of rows whose status text is "New" once
    the whitespace around it is taken away (compared exactly, so case
    matters); when no header contains "status" in any case, it is 0. *)
Theorem counts_of_processed_file f s df :
  processed f s df ->
  get Total_Count_of_Jobs (process_csv_file f)
  = Some (PInt (Z.of_nat (length (rows df))))
  /\ (forall c,
        sniff (lit "status") df = Some c ->
        get New_Job_Count (process_csv_file f)
        = Some (PInt (Z.of_nat
                        (length (filter (fun row => is_new_job (field df c row))
                                        (rows df))))))
  /\ (no_column_contains (lit "status") df ->
      get New_Job_Count (process_csv_file f) = Some (PInt 0))
  /\ (forall v, is_new_job v = true <-> trimmed_is (lit "New") v).
Proof.
  intros (Hn & Hr & Hv).
  destruct (vessel_name_read _ Hv) as [v Hread].
  unfold process_csv_file, try_block. rewrite Hn, Hr, Hread.
  split; [|split; [|split]].
  - destruct (if truthy (sniff (lit "status") df) then _ else _) eqn:E.
    + reflexivity.
    + exfalso. destruct (sniff (lit "status") df) as [c|] eqn:Hs;
        [|discriminate E].
      destruct (sniff_some _ _ _ status_nonempty Hs) as (Ht & Hin & _).
      rewrite Ht in E. simpl or_empty in E.
      rewrite (getitem_field _ _ Hin) in E. discriminate E.
  - intros c Hs.
    destruct (sniff_some _ _ _ status_nonempty Hs) as (Ht & Hin & _).
    rewrite Hs, Ht. simpl or_empty. rewrite (getitem_field _ _ Hin).
    rewrite eq_sum_count, filter_map_length. reflexivity.
  - intros Hno. apply sniff_none in Hno. rewrite Hno. reflexivity.
  - exact is_new_job_iff.
Qed.

Lemma counts_of_processed_file_witness :
  let df := mkdf [lit "Vessel"; lit "Job Status"]
                 [[PStr (lit "Titan"); PStr (lit " New ")];
                  [PStr (lit "Titan"); PStr (lit "new")];
                  [PStr (lit "Titan"); PStr (lit "New")]] in
  let f := mkfile (Some (lit "jobs.csv")) (Some df) in
  get Total_Count_of_Jobs (process_csv_file f) = Some (PInt 3)
  /\ get New_Job_Count (process_csv_file f) = Some (PInt 2).
Proof.
  intros df f.
  destruct (counts_of_processed_file f (lit "jobs.csv") df) as (Ht & Hc & _).
  - repeat split. right. discriminate.
  - split; [exact Ht|]. exact (Hc (lit "Job Status") eq_refl).
Defined.

(** C5 as stated fails: a CSV with the headers Vessel and Status and no
    data row has a sniffed status column, yet both counts are "Error". *)
Lemma counts_without_rows_fail :
  ~ (forall f s df c,
        name f = Some s -> read_csv f = Some df ->
        sniff (lit "status") df = Some c ->
        get New_Job_Count (process_csv_file f)
        = Some (PInt (Z.of_nat
                        (length (filter (fun row => is_new_job (field df c row))
                                        (rows df)))))
        /\ get Total_Count_of_Jobs (process_csv_file f)
           = Some (PInt (Z.of_nat (length (rows df))))).
Proof.
  intros H.
  destruct (H (mkfile (Some (lit "jobs.csv"))
                      (Some (mkdf [lit "Vessel"; lit "Status"] [])))
              (lit "jobs.csv") (mkdf [lit "Vessel"; lit "Status"] [])
              (lit "Status") eq_refl eq_refl eq_refl) as [Hnew _].
  vm_compute in Hnew. discriminate Hnew.
Qed.

Lemma eq_sum_bounds s v : (0 <= eq_sum s v <= Z.of_nat (length s))%Z.
Proof.
  induction s as [|x s IH]; cbn [eq_sum length]; [lia|].
  destruct (py_eq x v); lia.
Qed.

Lemma getitem_length df c s : getitem df c = Some s -> length s = len df.
Proof.
  unfold getitem, len. destruct (index_of c (columns df)); [|discriminate].
  intros H; inversion H. apply length_map.
Qed.

(** C10.  A file processed without an exception has integer counts with
    0 <= new <= total; a table with a vessel column and no row is not such
    a file: reading its first row raises and the record holds "Error" for
    the vessel name and both counts. *)
Theorem new_jobs_within_total f :
  (forall d,
      try_block f = Return d ->
      process_csv_file f = d
      /\ exists n t,
           get New_Job_Count d = Some (PInt n)
           /\ get Total_Count_of_Jobs d = Some (PInt t)
           /\ (0 <= n <= t)%Z)
  /\ (forall df c,
        read_csv f = Some df ->
        sniff (lit "vessel") df = Some c ->
        rows df = [] ->
        get Vessel_Name (process_csv_file f) = Some (PStr (lit "Error"))
        /\ get Total_Count_of_Jobs (process_csv_file f)
           = Some (PStr (lit "Error"))
        /\ get New_Job_Count (process_csv_file f)
           = Some (PStr (lit "Error"))).
Proof.
  split.
  - intros d H. split; [unfold process_csv_file; rewrite H; reflexivity|].
    unfold try_block in H.
    destruct (name f) as [s|]; [|discriminate].
    destruct (read_csv f) as [df|]; [|discriminate].
    destruct (if truthy (sniff (lit "vessel") df) then _ else _) as [v|];
      [|discriminate].
    destruct (truthy (sniff (lit "status") df)).
    + destruct (getitem df (or_empty (sniff (lit "status") df))) as [col|] eqn:Hg;
        [|discriminate].
      inversion H; subst d; clear H.
      eexists _, _. split; [reflexivity|]. split; [reflexivity|].
      pose proof (eq_sum_bounds
                    (map (fun v => PStr (strip (astype_str v))) col)
                    (PStr (lit "New"))) as Hb.
      rewrite length_map, (getitem_length _ _ _ Hg) in Hb. exact Hb.
    + inversion H; subst d; clear H.
      eexists _, _. split; [reflexivity|]. split; [reflexivity|]. lia.
  - intros df c Hr Hs Hrows.
    destruct (sniff_some _ _ _ vessel_nonempty Hs) as (Ht & Hin & _).
    unfold process_csv_file, try_block.
    destruct (name f) as [s|]; [|repeat split; reflexivity].
    rewrite Hr, Hs, Ht. simpl or_empty. rewrite (getitem_field _ _ Hin), Hrows.
    repeat split; reflexivity.
Qed.

Lemma new_jobs_within_total_witness :
  let df := mkdf [lit "Vessel"; lit "Status"]
                 [[PStr (lit "Titan"); PStr (lit "New")];
                  [PStr (lit "Titan"); PStr (lit "Done")]] in
  let f := mkfile (Some (lit "jobs.csv")) (Some df) in
  let g := mkfile (Some (lit "none.csv"))
                  (Some (mkdf [lit "Vessel"; lit "Status"] [])) in
  (exists n t,
      get New_Job_Count (process_csv_file f) = Some (PInt n)
      /\ get Total_Count_of_Jobs (process_csv_file f) = Some (PInt t)
      /\ (0 <= n <= t)%Z)
  /\ get Total_Count_of_Jobs (process_csv_file g) = Some (PStr (lit "Error")).
Proof.
  intros df f g. split.
  - destruct (proj1 (new_jobs_within_total f) (process_csv_file f) eq_refl)
      as [_ H].
    exact H.
  - destruct (proj2 (new_jobs_within_total g)
                    (mkdf [lit "Vessel"; lit "Status"] []) (lit "Vessel")
                    eq_refl eq_refl eq_refl) as (_ & H & _).
    exact H.
Defined.

(* ================================================================== *)
(** * Proofs: the rendered spreadsheet                                 *)
(* ================================================================== *)

Section OnRow.
Variable f : Cell -> Cell.

Lemma on_row_nth_error : forall g r k,
  nth_error (on_row r f g) k
  = if S k =? r then option_map (map f) (nth_error g k) else nth_error g k.
Proof.
  induction g as [|row g IH]; intros r k.
  - assert (E : on_row r f [] = []) by (destruct r as [|[|r]]; reflexivity).
    rewrite E. destruct (S k =? r); destruct k; reflexivity.
  - destruct r as [|[|r]].
    + reflexivity.
    + destruct k; reflexivity.
    + change (on_row (S (S r)) f (row :: g)) with (row :: on_row (S r) f g).
      destruct k as [|k]; [reflexivity|].
      cbn [nth_error]. rewrite IH. reflexivity.
Qed.

Hypothesis f_idem : forall c, f (f c) = f c.

Lemma fold_on_row_nth_error : forall rs g k,
  nth_error (fold_left (fun g r => on_row r f g) rs g) k
  = if existsb (Nat.eqb (S k)) rs
    then option_map (map f) (nth_error g k) else nth_error g k.
Proof.
  induction rs as [|r rs IH]; intros g k; [reflexivity|].
  cbn [fold_left existsb]. rewrite IH, on_row_nth_error.
  destruct (S k =? r) eqn:E; cbn [orb]; [|reflexivity].
  destruct (nth_error g k) as [row|]; cbn [option_map].
  - replace (map f (map f row)) with (map f row).
    + destruct (existsb _ rs); reflexivity.
    + rewrite map_map. apply map_ext. intros c. symmetry. apply f_idem.
  - destruct (existsb _ rs); reflexivity.
Qed.
End OnRow.

Lemma range_fuel_in fuel : forall a stop r,
  stop <= a + fuel ->
  In r (range_fuel fuel a stop 2)
  <-> a <= r < stop /\ Nat.even (r - a) = true.
Proof.
  induction fuel as [|fuel IH]; intros a stop r Hf; simpl.
  - split; [intros []|lia].
  - destruct (a <? stop) eqn:Hlt.
    + apply Nat.ltb_lt in Hlt. simpl. rewrite IH by lia. split.
      * intros [<-|[Hr He]].
        -- rewrite Nat.sub_diag. split; [lia|reflexivity].
        -- split; [lia|].
           replace (r - a) with (S (S (r - (a + 2)))) by lia. exact He.
      * intros [Hr He].
        destruct (Nat.eq_dec a r) as [Heq|Hne]; [left; exact Heq|right].
        assert (r - a <> 1).
        { intros H1. rewrite H1 in He. discriminate. }
        split; [lia|].
        replace (r - a) with (S (S (r - (a + 2)))) in He by lia. exact He.
    + apply Nat.ltb_ge in Hlt. split; [intros []|lia].
Qed.

Lemma range_even_rows m k :
  existsb (Nat.eqb (S k)) (range 2 (m + 1) 2)
  = (1 <=? k) && (k <? m) && Nat.odd k.
Proof.
  destruct (existsb _ _) eqn:E.
  - apply existsb_exists in E as (r & Hin & Hr).
    apply Nat.eqb_eq in Hr. subst r. unfold range in Hin.
    apply range_fuel_in in Hin; [|lia]. destruct Hin as [Hb He].
    replace (S k - 2) with (k - 1) in He by lia.
    symmetry. rewrite !andb_true_iff, Nat.leb_le, Nat.ltb_lt.
    repeat split; try lia.
    destruct k as [|k]; [lia|]. simpl in He. rewrite Nat.sub_0_r in He.
    rewrite Nat.odd_succ. exact He.
  - symmetry. apply not_true_is_false. intros H.
    rewrite !andb_true_iff, Nat.leb_le, Nat.ltb_lt in H.
    destruct H as [[H1 H2] H3].
    assert (Hex : existsb (Nat.eqb (S k)) (range 2 (m + 1) 2) = true).
    { apply existsb_exists. exists (S k). split; [|apply Nat.eqb_refl].
      unfold range. apply range_fuel_in; [lia|]. split; [lia|].
      destruct k as [|k]; [lia|]. simpl. rewrite Nat.sub_0_r.
      rewrite Nat.odd_succ in H3. exact H3. }
    congruence.
Qed.

(** The grid before the striping loop: the header cells styled, every data
    cell centred and bordered, no data cell filled. *)
Lemma grid_before_stripes df :
  grid (add_duplicate_rule (format_data (format_headers (load_workbook df))))
  = map (fun c => set_header (blank (XStr c))) (columns df)
    :: map (map (fun v => set_data (blank (to_cell_value v)))) (rows df).
Proof.
  unfold add_duplicate_rule, format_data, format_headers, load_workbook.
  simpl. rewrite !map_map. f_equal.
  apply map_ext. intros row. rewrite map_map. reflexivity.
Qed.

Lemma set_fill_idem p c : set_fill p (set_fill p c) = set_fill p c.
Proof. reflexivity. Qed.

(** The striping loop fills the rows of the grid at the odd indices: the
    sheet rows 2, 4, 6, ... *)
Lemma alternate_rows_nth_error ws k :
  nth_error (grid (alternate_rows ws)) k
  = if (1 <=? k) && (k <? max_row ws) && Nat.odd k
    then option_map (map (set_fill gray_fill)) (nth_error (grid ws) k)
    else nth_error (grid ws) k.
Proof.
  unfold alternate_rows, with_grid. cbn [grid].
  rewrite (fold_on_row_nth_error _ (set_fill_idem gray_fill)).
  rewrite range_even_rows. reflexivity.
Qed.

(** The grid of the report, row by row. *)
Lemma report_grid_nth_error df k :
  nth_error (grid (create_excel_report df)) k
  = match k with
    | O => Some (map (fun c => set_header (blank (XStr c))) (columns df))
    | S j =>
        option_map
          (map (fun v =>
                  (if Nat.odd k then set_fill gray_fill else (fun c => c))
                    (set_data (blank (to_cell_value v)))))
          (nth_error (rows df) j)
    end.
Proof.
  unfold create_excel_report, adjust_column_widths, add_table. cbn [grid].
  rewrite alternate_rows_nth_error.
  unfold max_row. rewrite grid_before_stripes. cbn [length].
  destruct k as [|j]; [reflexivity|].
  cbn [nth_error]. rewrite nth_error_map.
  destruct (nth_error (rows df) j) as [row|] eqn:Hj.
  - assert (Hlt : j < length (rows df)).
    { apply nth_error_Some. congruence. }
    rewrite length_map.
    replace (1 <=? S j) with true by (symmetry; apply Nat.leb_le; lia).
    replace (S j <? Nat.max 1 (S (length (rows df)))) with true
      by (symmetry; apply Nat.ltb_lt; lia).
    cbn [andb option_map]. destruct (Nat.odd (S j)); cbn [option_map].
    + rewrite map_map. reflexivity.
    + reflexivity.
  - destruct (_ && _ && _); reflexivity.
Qed.

(** The cells of a data row hold the values of the row of the table. *)
Lemma data_row_values df k row :
  data_row (create_excel_report df) k = Some row ->
  exists values,
    nth_error (rows df) (k - 1) = Some values
    /\ map value row = map to_cell_value values.
Proof.
  destruct k as [|j]; [discriminate|]. unfold data_row.
  rewrite report_grid_nth_error.
  replace (S j - 1) with j by lia.
  destruct (nth_error (rows df) j) as [values|]; [|discriminate].
  intros H; inversion H; subst; clear H.
  exists values. split; [reflexivity|].
  rewrite map_map. apply map_ext. intros v.
  destruct (Nat.odd (S j)); reflexivity.
Qed.

(** C8 (amended).  Counting the data rows from 1 at the first data row, the
    rows at the odd positions (the sheet rows 2, 4, 6, ...) carry the gray
    fill and the rows at the even positions carry none; the fill comes on
    top of the centred alignment and the thin border and leaves the value
    of every cell as the table has it. *)
Theorem zebra_fill_on_odd_data_rows df k row :
  data_row (create_excel_report df) k = Some row ->
  exists values,
    nth_error (rows df) (k - 1) = Some values
    /\ row = map (fun v =>
                    mkcell (to_cell_value v)
                           (if Nat.odd k then gray_fill else NoFill)
                           DefaultFont data_alignment ThinBorder)
                 values.
Proof.
  destruct k as [|j]; [discriminate|]. unfold data_row.
  rewrite report_grid_nth_error.
  replace (S j - 1) with j by lia.
  destruct (nth_error (rows df) j) as [values|]; [|discriminate].
  intros H; inversion H; subst; clear H.
  exists values. split; [reflexivity|].
  apply map_ext. intros v. destruct (Nat.odd (S j)); reflexivity.
Qed.

Lemma zebra_fill_on_odd_data_rows_witness :
  let df := mkdf [File_Name] [[PStr (lit "a.csv")]; [PStr (lit "b.csv")]] in
  exists values,
    nth_error (rows df) 0 = Some values
    /\ [mkcell (XStr (lit "a.csv")) gray_fill DefaultFont data_alignment
               ThinBorder]
       = map (fun v =>
                mkcell (to_cell_value v) gray_fill DefaultFont data_alignment
                       ThinBorder)
             values.
Proof.
  intros df.
  exact (zebra_fill_on_odd_data_rows
           df 1
           [mkcell (XStr (lit "a.csv")) gray_fill DefaultFont data_alignment
                   ThinBorder]
           eq_refl).
Defined.

(** C8 as stated fails: with two data rows, the first one is filled and
    the second one is not, so the filled rows are not the second, fourth,
    ... counted from 1 at the first data row. *)
Lemma zebra_fill_not_on_even_data_rows :
  ~ (forall df k row,
        data_row (create_excel_report df) k = Some row ->
        Forall (fun c => fill c = if Nat.even k then gray_fill else NoFill)
               row).
Proof.
  intros H.
  specialize (H (mkdf [File_Name] [[PStr (lit "a.csv")]; [PStr (lit "b.csv")]])
                1 _ eq_refl).
  inversion H as [|c l Hc Hl]. discriminate Hc.
Qed.

Lemma max_length_from column : forall m,
  fold_left (fun m c =>
               if m <? length (str_of_value (value c))
               then length (str_of_value (value c)) else m)
            column m
  = Nat.max m (list_max (map value_length column)).
Proof.
  induction column as [|c column IH]; intros m; simpl.
  - lia.
  - rewrite IH. unfold value_length at 2.
    destruct (m <? length (str_of_value (value c))) eqn:E.
    + apply Nat.ltb_lt in E. lia.
    + apply Nat.ltb_ge in E. lia.
Qed.

Lemma max_length_list_max column :
  max_length column = list_max (map value_length column).
Proof. unfold max_length. rewrite max_length_from. lia. Qed.

(** The width set for column [j] comes from the loop over its cells. *)
Lemma column_width_nth df j col :
  nth_error (ws_columns (create_excel_report df)) j = Some col ->
  nth_error (column_widths (create_excel_report df)) j
  = Some (max_length col + 2).
Proof.
  intros H. unfold create_excel_report at 1, adjust_column_widths.
  cbn [column_widths]. rewrite nth_error_map.
  change (ws_columns (create_excel_report df))
    with (ws_columns (add_table (alternate_rows (add_duplicate_rule
            (format_data (format_headers (load_workbook df))))))) in H.
  rewrite H. reflexivity.
Qed.

(** The first cell of column [j] is the cell of the header row. *)
Lemma column_head df j col :
  nth_error (ws_columns (create_excel_report df)) j = Some col ->
  hd_error col
  = Some (nth j (hd [] (grid (create_excel_report df))) (blank XNone)).
Proof.
  intros H.
  pose proof (report_grid_nth_error df 0) as H0. cbv beta iota in H0.
  remember (create_excel_report df) as ws eqn:Hws. clear Hws.
  unfold ws_columns in H. rewrite nth_error_map in H.
  destruct (nth_error (seq 0 (max_column ws)) j) as [i|] eqn:Hi;
    [|discriminate].
  assert (i = j).
  { assert (Hlt : j < length (seq 0 (max_column ws)))
      by (apply nth_error_Some; congruence).
    rewrite length_seq in Hlt.
    rewrite nth_error_nth' with (d := 0) in Hi by (rewrite length_seq; lia).
    rewrite seq_nth in Hi by lia. inversion Hi. reflexivity. }
  subst i. cbn [option_map] in H. inversion H; subst col; clear H.
  destruct (grid ws) as [|h g]; [discriminate H0|]. reflexivity.
Qed.

(** C9.  The width set for a column of the sheet is the greatest number of
    characters of [str(cell.value)] over the cells of the column, the
    header cell among them, plus 2. *)
Theorem column_width_is_longest_plus_two df j col :
  nth_error (ws_columns (create_excel_report df)) j = Some col ->
  nth_error (column_widths (create_excel_report df)) j
  = Some (list_max (map value_length col) + 2)
  /\ hd_error col
     = Some (nth j (hd [] (grid (create_excel_report df))) (blank XNone)).
Proof.
  intros H. split.
  - rewrite (column_width_nth df j col H), max_length_list_max. reflexivity.
  - apply column_head. exact H.
Qed.

Lemma column_width_is_longest_plus_two_witness :
  let df := mkdf [lit "Name"] [[PStr (lit "Titan II")]; [PNaN]] in
  nth_error (column_widths (create_excel_report df)) 0 = Some 10.
Proof.
  intros df.
  exact (proj1 (column_width_is_longest_plus_two
                  df 0
                  [mkcell (XStr (lit "Name")) header_fill header_font
                          header_alignment ThinBorder;
                   mkcell (XStr (lit "Titan II")) gray_fill DefaultFont
                          data_alignment ThinBorder;
                   mkcell XNone NoFill DefaultFont data_alignment ThinBorder]
                  eq_refl)).
Defined.

(** ** Empty cells never set the width under a header of four characters *)

Lemma text_length_cases c :
  text_length c = value_length c \/ (text_length c = 0 /\ value_length c = 4).
Proof.
  unfold text_length, value_length. destruct (value c); auto.
Qed.

Lemma list_max_under_header (m : nat) col :
  4 <= m ->
  Nat.max m (list_max (map value_length col))
  = Nat.max m (list_max (map text_length col)).
Proof.
  intros Hm. induction col as [|c col IH]; [reflexivity|].
  cbn [map list_max fold_right] in *.
  change (fold_right Nat.max 0 (map value_length col))
    with (list_max (map value_length col)).
  change (fold_right Nat.max 0 (map text_length col))
    with (list_max (map text_length col)).
  destruct (text_length_cases c) as [E|[E0 E4]]; lia.
Qed.

Lemma max_column_bound ws n :
  (forall row, In row (grid ws) -> length row <= n) -> max_column ws <= n.
Proof.
  unfold max_column. induction (grid ws) as [|row g IH]; intros H; simpl.
  - lia.
  - assert (length row <= n) by (apply H; left; reflexivity).
    assert (fold_right (fun row m => Nat.max (length row) m) 0 g <= n)
      by (apply IH; intros r Hr; apply H; right; exact Hr).
    lia.
Qed.

Lemma report_rows_bound df :
  headed df ->
  forall row, In row (grid (create_excel_report df)) ->
              length row <= length (columns df).
Proof.
  intros [_ Hrows] row Hin.
  apply In_nth_error in Hin as [k Hk].
  rewrite report_grid_nth_error in Hk. destruct k as [|j].
  - inversion Hk. rewrite length_map. lia.
  - destruct (nth_error (rows df) j) as [values|] eqn:Hj; [|discriminate].
    inversion Hk. rewrite length_map. apply Hrows.
    eapply nth_error_In; exact Hj.
Qed.

(** In a report whose headers have four characters or more, the width of
    a column is also the longest text shown in it plus 2: the four
    characters of "None" counted for an empty cell never exceed the
    header. *)
Lemma column_width_ignores_empty_cells df j col :
  headed df ->
  nth_error (ws_columns (create_excel_report df)) j = Some col ->
  nth_error (column_widths (create_excel_report df)) j
  = Some (list_max (map text_length col) + 2).
Proof.
  intros Hhead Hcol.
  pose proof (column_head df j col Hcol) as Hhd.
  rewrite (column_width_nth df j col Hcol), max_length_list_max.
  do 2 f_equal.
  assert (Hj : j < length (columns df)).
  { assert (Hlt : j < length (ws_columns (create_excel_report df)))
      by (apply nth_error_Some; congruence).
    unfold ws_columns in Hlt. rewrite length_map, length_seq in Hlt.
    pose proof (max_column_bound _ _ (report_rows_bound df Hhead)). lia. }
  pose proof (report_grid_nth_error df 0) as H0. cbv beta iota in H0.
  destruct (grid (create_excel_report df)) as [|h g]; [discriminate H0|].
  injection H0 as H0. cbn [hd] in Hhd. subst h.
  destruct col as [|c col]; [discriminate Hhd|]. injection Hhd as Hc.
  assert (Hvl : 4 <= value_length c /\ text_length c = value_length c).
  { destruct (nth_error (columns df) j) as [cj|] eqn:Hcj;
      [|apply nth_error_None in Hcj; lia].
    rewrite (nth_error_nth _ _ (blank XNone)
               (map_nth_error (fun c => set_header (blank (XStr c)))
                              _ _ Hcj)) in Hc.
    subst c. unfold value_length, text_length. cbn.
    split; [|reflexivity]. apply (proj1 Hhead). eapply nth_error_In; exact Hcj. }
  destruct Hvl as [H4 Ht].
  cbn [map list_max fold_right].
  change (fold_right Nat.max 0 (map value_length col))
    with (list_max (map value_length col)).
  change (fold_right Nat.max 0 (map text_length col))
    with (list_max (map text_length col)).
  rewrite Ht. apply list_max_under_header. exact H4.
Qed.

(* ================================================================== *)
(** * Proofs: the columns of the table and of the report               *)
(* ================================================================== *)

Lemma all_keys_of_records records :
  records <> [] ->
  Forall (fun d => map fst d = columns_of_code) records ->
  all_keys records = columns_of_code.
Proof.
  intros Hne Hall. unfold all_keys.
  destruct records as [|d records]; [congruence|].
  inversion Hall as [|? ? Hd Hrest]; subst. simpl fold_left.
  rewrite Hd.
  change (fold_left add_key columns_of_code []) with columns_of_code.
  clear Hall Hne Hd. induction Hrest as [|d' records Hd' _ IH]; [reflexivity|].
  simpl fold_left. rewrite Hd'. exact IH.
Qed.

Lemma summary_data_keys files :
  Forall (fun d => map fst d = columns_of_code) (summary_data files).
Proof.
  induction files; simpl; constructor; auto using record_keys.
Qed.

Lemma columns_map_column c g df : columns (map_column c g df) = columns df.
Proof. unfold map_column. destruct (index_of c (columns df)); reflexivity. Qed.

Lemma rows_map_column c g df i :
  index_of c (columns df) = Some i ->
  rows (map_column c g df)
  = map (fun row => set_nth i (g (cell i row)) row) (rows df).
Proof. intros H. unfold map_column. rewrite H. reflexivity. Qed.

Lemma nth_error_set_nth i v : forall row,
  nth_error (set_nth i v row) i = Some v.
Proof.
  induction i as [|i IH]; intros [|x row]; simpl; auto.
Qed.

(** A value of the date column of the display table comes from
    [strftime]. *)
Lemma display_date_cell df i k values :
  index_of Date_Extracted (columns df) = Some i ->
  nth_error (rows (filtered_df_display df)) k = Some values ->
  exists v, nth_error values i = Some (strftime v).
Proof.
  intros Hi H. unfold filtered_df_display in H.
  rewrite (rows_map_column _ _ _ _ Hi), nth_error_map in H.
  destruct (nth_error (rows df) k) as [r|]; [|discriminate].
  inversion H. exists (cell i r). apply nth_error_set_nth.
Qed.

Lemma columns_apply_filters vf dr df :
  columns (apply_filters vf dr df) = columns df.
Proof.
  unfold apply_filters.
  destruct dr as [|a [|b [|c dr]]]; destruct vf; reflexivity.
Qed.

(** The table of the app has the five columns in the order of the keys of
    the records. *)
Lemma columns_build_table files :
  files <> [] -> columns (build_table files) = columns_of_code.
Proof.
  intros Hne. unfold build_table. rewrite columns_map_column.
  unfold DataFrame_of. cbn [columns].
  apply all_keys_of_records; [|apply summary_data_keys].
  destruct files; [congruence|discriminate].
Qed.

Lemma header_row_report df :
  header_row (create_excel_report df) = map XStr (columns df).
Proof.
  unfold header_row. pose proof (report_grid_nth_error df 0) as H.
  cbv beta iota in H.
  destruct (grid (create_excel_report df)) as [|h g]; [discriminate H|].
  inversion H; subst h. cbn [hd]. rewrite map_map. reflexivity.
Qed.


(** C3 (amended).  The columns of the exported sheet are, in this order,
    File Name, Vessel Name, Total Count of Jobs, New Job Count and Date
    Extracted from File Name: the date is the fifth column, and its cells
    hold the display text (or nothing), not a date value. *)
Theorem report_columns_in_record_order files vessel_filter date_range :
  files <> [] ->
  let ws := excel_report
              (apply_filters vessel_filter date_range (build_table files)) in
  header_row ws = map XStr columns_of_code
  /\ forall k row,
       data_row ws k = Some row ->
       exists c, nth_error row 4 = Some c /\ display_value (value c).
Proof.
  intros Hne ws. subst ws. unfold excel_report.
  set (filtered := apply_filters vessel_filter date_range (build_table files)).
  assert (Hcols : columns filtered = columns_of_code).
  { unfold filtered. rewrite columns_apply_filters.
    apply columns_build_table; exact Hne. }
  split.
  - rewrite header_row_report. unfold filtered_df_display.
    rewrite columns_map_column, Hcols. reflexivity.
  - intros k row Hrow.
    destruct (data_row_values _ _ _ Hrow) as (values & Hvalues & Hrowv).
    assert (Hidx : index_of Date_Extracted (columns filtered) = Some 4)
      by (rewrite Hcols; reflexivity).
    destruct (display_date_cell _ _ _ _ Hidx Hvalues) as [v Hv].
    assert (Hc : nth_error (map value row) 4
                 = Some (to_cell_value (strftime v))).
    { rewrite Hrowv, nth_error_map, Hv. reflexivity. }
    rewrite nth_error_map in Hc.
    destruct (nth_error row 4) as [c|]; [|discriminate].
    exists c. split; [reflexivity|]. injection Hc as Hc. rewrite Hc.
    unfold display_value.
    destruct v; simpl; try (left; reflexivity); right; eauto.
Qed.

Lemma report_columns_in_record_order_witness :
  header_row
    (excel_report
       (apply_filters [] []
          (build_table [mkfile (Some (lit "log 01022024.csv")) None])))
  = map XStr columns_of_code.
Proof.
  apply (report_columns_in_record_order
           [mkfile (Some (lit "log 01022024.csv")) None] [] []).
  discriminate.
Defined.

(** C3 as stated fails: the third column of the sheet is Total Count of
    Jobs, not the date. *)
Lemma report_columns_not_in_spec_order :
  ~ (forall files vessel_filter date_range,
        files <> [] ->
        header_row
          (excel_report
             (apply_filters vessel_filter date_range (build_table files)))
        = map XStr columns_of_spec).
Proof.
  intros H.
  specialize (H [mkfile (Some (lit "log 01022024.csv")) None] [] []).
  assert (Hne : [mkfile (Some (lit "log 01022024.csv")) None] <> [])
    by discriminate.
  specialize (H Hne). vm_compute in H. discriminate H.
Qed.

(* ================================================================== *)
(** * Proofs: the filters                                              *)
(* ================================================================== *)

Lemma date_tests_in_range v s e :
  date_ge v s && date_le v e = in_range s e v.
Proof. destruct v; reflexivity. Qed.

Lemma in_range_not_missing s e v :
  in_range s e v = true -> is_missing v = false.
Proof. destruct v; simpl; congruence. Qed.

Lemma filter_none {A} (p : A -> bool) (l : list A) :
  (forall x, In x l -> p x = false) -> filter p l = [].
Proof.
  induction l as [|x l IH]; intros H; [reflexivity|]. simpl.
  rewrite (H x (or_introl eq_refl)). apply IH.
  intros y Hy. apply H. right. exact Hy.
Qed.

Lemma rows_apply_filters vf dr df :
  rows (apply_filters vf dr df)
  = filter (date_test dr df) (filter (vessel_test vf df) (rows df)).
Proof.
  assert (Hall : forall l : list (list pyval), filter (fun _ => true) l = l).
  { induction l as [|x l IH]; simpl; congruence. }
  unfold apply_filters, date_test, vessel_test.
  destruct vf as [|v vf].
  - rewrite (Hall (rows df)).
    destruct dr as [|a [|b [|c dr]]]; try (rewrite Hall; reflexivity).
    cbn [select rows]. apply filter_ext. intros row.
    apply date_tests_in_range.
  - destruct dr as [|a [|b [|c dr]]]; try (rewrite Hall; reflexivity).
    cbn [select rows]. apply filter_ext. intros row.
    apply date_tests_in_range.
Qed.

(** C6.  A row is kept when it passes both tests; the vessel test is
    skipped for an empty selection, so that the table is then not filtered
    by vessel (and comes back as it is when the date range is not complete
    either); under a complete range a row whose date is null is dropped,
    and a range that no row falls in leaves no row.  The sentinel
    "Unknown" is coerced to a null date. *)
Theorem filter_is_conjunction vessel_filter date_range df :
  (forall row,
      In row (rows (apply_filters vessel_filter date_range df))
      <-> In row (rows df)
          /\ vessel_test vessel_filter df row = true
          /\ date_test date_range df row = true)
  /\ rows (apply_filters [] date_range df)
     = filter (date_test date_range df) (rows df)
  /\ (length date_range <> 2 -> apply_filters [] date_range df = df)
  /\ (forall start_date end_date row,
        date_range = [start_date; end_date] ->
        is_missing (field df Date_Extracted row) = true ->
        ~ In row (rows (apply_filters vessel_filter date_range df)))
  /\ (forall start_date end_date,
        date_range = [start_date; end_date] ->
        (forall row, In row (rows df) ->
                     in_range start_date end_date
                              (field df Date_Extracted row) = false) ->
        rows (apply_filters vessel_filter date_range df) = [])
  /\ is_missing (to_datetime (PStr (lit "Unknown"))) = true.
Proof.
  split; [|split; [|split; [|split; [|split]]]].
  - intros row. rewrite rows_apply_filters, !filter_In. tauto.
  - rewrite rows_apply_filters. f_equal.
    induction (rows df) as [|x l IH]; simpl; congruence.
  - intros Hlen. unfold apply_filters.
    destruct date_range as [|a [|b [|c dr]]]; try reflexivity.
    simpl in Hlen. congruence.
  - intros s e row -> Hmiss Hin.
    rewrite rows_apply_filters, filter_In in Hin. destruct Hin as [_ Ht].
    cbn [date_test] in Ht. apply in_range_not_missing in Ht. congruence.
  - intros s e -> Hnone. rewrite rows_apply_filters.
    apply filter_none. intros row Hin. apply filter_In in Hin as [Hin _].
    cbn [date_test]. apply Hnone. exact Hin.
  - reflexivity.
Qed.

Lemma filter_is_conjunction_witness :
  let df := mkdf columns_of_code
                 [[PStr (lit "a.csv"); PStr (lit "Titan"); PInt 3; PInt 1;
                   PNaT];
                  [PStr (lit "b 01022024.csv"); PStr (lit "Titan"); PInt 2;
                   PInt 0; PDate (mkdate 2024 2 1)]] in
  ~ In [PStr (lit "a.csv"); PStr (lit "Titan"); PInt 3; PInt 1; PNaT]
       (rows (apply_filters [] [mkdate 2024 1 1; mkdate 2024 12 31] df))
  /\ rows (apply_filters [PStr (lit "Titan")]
                         [mkdate 2025 1 1; mkdate 2025 12 31] df) = [].
Proof.
  intros df. split.
  - destruct (filter_is_conjunction
                [] [mkdate 2024 1 1; mkdate 2024 12 31] df)
      as (_ & _ & _ & Hnull & _).
    apply (Hnull (mkdate 2024 1 1) (mkdate 2024 12 31)); reflexivity.
  - destruct (filter_is_conjunction
                [PStr (lit "Titan")] [mkdate 2025 1 1; mkdate 2025 12 31] df)
      as (_ & _ & _ & _ & Hempty & _).
    apply (Hempty (mkdate 2025 1 1) (mkdate 2025 12 31)); [reflexivity|].
    intros row [<-|[<-|[]]]; reflexivity.
Defined.

(* ================================================================== *)
(** * Proofs: the per-vessel breakdown                                 *)
(* ================================================================== *)

Lemma ltb_asym a : forall b, Py.ltb a b = true -> Py.ltb b a = false.
Proof.
  induction a as [|x a IH]; intros [|y b] H; simpl in *;
    try discriminate; try reflexivity.
  apply orb_true_iff in H.
  apply orb_false_iff.
  destruct H as [H|H].
  - apply Nat.ltb_lt in H. split.
    + apply Nat.ltb_ge. lia.
    + apply andb_false_iff. left. apply Nat.eqb_neq. lia.
  - apply andb_true_iff in H as [He Hl]. apply Nat.eqb_eq in He. split.
    + apply Nat.ltb_ge. lia.
    + apply andb_false_iff. right. apply IH. exact Hl.
Qed.

(** C4.  Two files of one vessel, dated 1 March 2024 and 2 January 2024:
    the expander lists the row of 2 January first, because the rows are
    sorted on the display text DD-MM-YYYY, not on the date. *)
Theorem per_vessel_rows_follow_display_text :
  let table := mkdf [lit "Vessel"; lit "Status"]
                    [[PStr (lit "Titan"); PStr (lit "New")]] in
  let files := [mkfile (Some (lit "jobs 01032024.csv")) (Some table);
                mkfile (Some (lit "jobs 02012024.csv")) (Some table)] in
  let filtered_df :=
    apply_filters [] [mkdate 2024 1 2; mkdate 2024 3 1] (build_table files) in
  option_map
    (map (fun e => (vessel e, column (details e) Date_Extracted)))
    (per_vessel_breakdown filtered_df)
  = Some [(PStr (lit "Titan"),
           [PStr (lit "02-01-2024"); PStr (lit "01-03-2024")])]
  /\ column filtered_df Date_Extracted
     = [PDate (mkdate 2024 3 1); PDate (mkdate 2024 1 2)]
  /\ date_ltb (mkdate 2024 1 2) (mkdate 2024 3 1) = true.
Proof. repeat split; vm_compute; reflexivity. Qed.

(** ** Equality of values *)

Lemma date_eqb_eq a b : date_eqb a b = true <-> a = b.
Proof.
  destruct a as [y m d], b as [y' m' d']. unfold date_eqb. simpl.
  rewrite !andb_true_iff, !Z.eqb_eq. split.
  - intros [[-> ->] ->]. reflexivity.
  - intros H; inversion H; auto.
Qed.

Lemma py_eq_eq a b : py_eq a b = true -> a = b.
Proof.
  destruct a, b; simpl; try discriminate; intros H.
  - apply eqb_eq in H. congruence.
  - apply Z.eqb_eq in H. congruence.
  - apply date_eqb_eq in H. congruence.
Qed.

Lemma py_eq_refl a : is_missing a = false -> py_eq a a = true.
Proof.
  destruct a; simpl; try discriminate; intros _.
  - apply eqb_eq; reflexivity.
  - apply Z.eqb_refl.
  - apply date_eqb_eq; reflexivity.
Qed.

Lemma same_eq a b : same a b = true <-> a = b.
Proof.
  split.
  - intros H. destruct a, b; try discriminate H; try reflexivity;
      apply py_eq_eq; exact H.
  - intros <-. destruct a; simpl; try reflexivity.
    + apply eqb_eq; reflexivity.
    + apply Z.eqb_refl.
    + apply date_eqb_eq; reflexivity.
Qed.

Lemma existsb_same v l : existsb (same v) l = true <-> In v l.
Proof.
  rewrite existsb_exists. split.
  - intros (x & Hin & Hs). apply same_eq in Hs. congruence.
  - intros Hin. exists v. split; [exact Hin|apply same_eq; reflexivity].
Qed.

(** ** [unique] and [sorted] *)

Lemma unique_acc_in s : forall seen v,
  In v (unique_acc seen s) <-> In v s /\ ~ In v seen.
Proof.
  induction s as [|x s IH]; intros seen v; simpl; [tauto|].
  destruct (existsb (same x) seen) eqn:E.
  - apply existsb_same in E. rewrite IH. split.
    + intros [H1 H2]. auto.
    + intros [[->|H1] H2]; [contradiction|auto].
  - assert (Hx : ~ In x seen).
    { intros H. apply existsb_same in H. congruence. }
    simpl. rewrite IH. simpl. split.
    + intros [<-|[H1 H2]]; auto.
    + intros [[<-|H1] H2]; [left; reflexivity|].
      destruct (existsb (same x) [v]) eqn:Ev.
      * apply existsb_same in Ev as [->|[]]. left; reflexivity.
      * right. split; [exact H1|]. intros [->|H3]; [|contradiction].
        assert (existsb (same v) [v] = true)
          by (apply existsb_same; left; reflexivity).
        congruence.
Qed.

Lemma unique_acc_nodup s : forall seen, NoDup (unique_acc seen s).
Proof.
  induction s as [|x s IH]; intros seen; simpl; [constructor|].
  destruct (existsb (same x) seen); [apply IH|].
  constructor; [|apply IH].
  rewrite unique_acc_in. intros [_ H]. apply H. left; reflexivity.
Qed.

Lemma unique_in s v : In v (unique s) <-> In v s.
Proof. unfold unique. rewrite unique_acc_in. simpl. tauto. Qed.

Lemma insert_perm x : forall l r, insert x l = Some r -> Permutation (x :: l) r.
Proof.
  induction l as [|y l IH]; intros r H; simpl in H.
  - inversion H. apply Permutation_refl.
  - destruct (py_lt y x) as [[|]|]; [|inversion H; apply Permutation_refl
                                      |discriminate].
    destruct (insert x l) as [r'|]; [|discriminate].
    inversion H; subst. eapply perm_trans; [apply perm_swap|].
    apply perm_skip. apply IH. reflexivity.
Qed.

Lemma sorted_perm : forall l r, sorted l = Some r -> Permutation l r.
Proof.
  induction l as [|x l IH]; intros r H; simpl in H.
  - inversion H. apply perm_nil.
  - destruct (sorted l) as [r'|]; [|discriminate].
    eapply perm_trans; [apply perm_skip, IH; reflexivity|].
    apply insert_perm. exact H.
Qed.

(** ** Sums by group *)

Lemma sum_cons_int v s T :
  Report.sum (v :: s) = Some T ->
  exists z T', v = PInt z /\ Report.sum s = Some T' /\ T = (z + T')%Z.
Proof.
  simpl. destruct v; try discriminate.
  destruct (Report.sum s) as [t|]; [|discriminate].
  intros H; inversion H. eauto.
Qed.

Lemma sum_over_zero {A} (vs : list A) :
  sum_over (map (fun _ => Some 0%Z) vs) = Some 0%Z.
Proof. induction vs as [|v vs IH]; simpl; [|rewrite IH]; reflexivity. Qed.

Section Groups.
Variable F : pyval -> option Z.
Variable a : pyval.
Variable z : Z.

Let bump (v : pyval) : option Z :=
  if py_eq a v then add_to z (F v) else F v.

Lemma bump_absent vs : ~ In a vs -> map bump vs = map F vs.
Proof.
  induction vs as [|v vs IH]; intros Hn; [reflexivity|]. simpl.
  rewrite IH by (intros H; apply Hn; right; exact H).
  unfold bump. destruct (py_eq a v) eqn:E; [|reflexivity].
  apply py_eq_eq in E. exfalso. apply Hn. left. symmetry. exact E.
Qed.

Lemma bump_once vs : forall T,
  NoDup vs -> In a vs -> py_eq a a = true ->
  sum_over (map F vs) = Some T ->
  sum_over (map bump vs) = Some (z + T)%Z.
Proof.
  induction vs as [|v vs IH]; intros T Hnd Hin Hrefl Hsum; [destruct Hin|].
  inversion Hnd as [|? ? Hv Hnd']; subst.
  simpl in Hsum. destruct (F v) as [t|] eqn:Ev; [|discriminate].
  destruct (sum_over (map F vs)) as [T'|] eqn:Er; [|discriminate].
  inversion Hsum; subst T; clear Hsum.
  simpl. unfold bump at 1. destruct (py_eq a v) eqn:E.
  - apply py_eq_eq in E. subst v.
    rewrite bump_absent by exact Hv. rewrite Ev, Er. simpl.
    f_equal. lia.
  - destruct Hin as [->|Hin]; [congruence|].
    rewrite Ev, (IH T' Hnd' Hin Hrefl eq_refl). f_equal. lia.
Qed.
End Groups.

Lemma grouped_sum (x key : list pyval -> pyval) vs :
  NoDup vs ->
  forall rs T,
    (forall r, In r rs -> In (key r) vs /\ is_missing (key r) = false) ->
    Report.sum (map x rs) = Some T ->
    sum_over
      (map (fun v =>
              Report.sum (map x (filter (fun r => py_eq (key r) v) rs)))
           vs)
    = Some T.
Proof.
  intros Hnd. induction rs as [|r rs IH]; intros T Hkeys Hsum.
  - simpl in Hsum. inversion Hsum. apply sum_over_zero.
  - change (map x (r :: rs)) with (x r :: map x rs) in Hsum.
    destruct (sum_cons_int _ _ _ Hsum) as (z & T' & Hz & Hrest & ->).
    destruct (Hkeys r (or_introl eq_refl)) as [Hin Hpresent].
    assert (IH' := IH T' (fun r' H => Hkeys r' (or_intror H)) Hrest).
    rewrite <- (bump_once _ (key r) z vs T' Hnd Hin
                          (py_eq_refl _ Hpresent) IH').
    f_equal. apply map_ext. intros v. simpl.
    destruct (py_eq (key r) v); [|reflexivity].
    simpl. rewrite Hz. reflexivity.
Qed.

(** ** The display table keeps the vessel and the counts of each row *)

Lemma index_of_inj cols : forall a b i,
  index_of a cols = Some i -> index_of b cols = Some i -> a = b.
Proof.
  induction cols as [|x cols IH]; intros a b i Ha Hb; [discriminate|].
  simpl in Ha, Hb.
  destruct (Py.eqb x a) eqn:Ea, (Py.eqb x b) eqn:Eb.
  - apply eqb_eq in Ea, Eb. congruence.
  - destruct (index_of b cols); [|discriminate].
    inversion Ha; subst. discriminate.
  - destruct (index_of a cols); [|discriminate].
    inversion Hb; subst. discriminate.
  - destruct (index_of a cols) as [ia|] eqn:Ia; [|discriminate].
    destruct (index_of b cols) as [ib|] eqn:Ib; [|discriminate].
    inversion Ha; inversion Hb; subst. apply (IH a b ia); congruence.
Qed.

Lemma cell_set_nth_other j v : forall i row,
  i <> j -> cell i (set_nth j v row) = cell i row.
Proof.
  unfold cell. induction j as [|j IH]; intros i row Hne.
  - destruct i as [|i]; [congruence|]. destruct row; simpl; [|reflexivity].
    destruct i; reflexivity.
  - destruct i as [|i]; destruct row as [|x row]; simpl; try reflexivity.
    + rewrite IH by lia. destruct i; reflexivity.
    + apply IH. lia.
Qed.

Lemma rows_display df :
  rows (filtered_df_display df) = map (display_row df) (rows df).
Proof.
  unfold filtered_df_display, map_column, display_row.
  destruct (index_of Date_Extracted (columns df)); [reflexivity|].
  symmetry. apply map_id.
Qed.

Lemma field_display df c row :
  c <> Date_Extracted ->
  field (filtered_df_display df) c (display_row df row) = field df c row.
Proof.
  intros Hc. unfold field, filtered_df_display. rewrite columns_map_column.
  unfold display_row.
  destruct (index_of c (columns df)) as [i|] eqn:Hi; [|reflexivity].
  destruct (index_of Date_Extracted (columns df)) as [j|] eqn:Hj;
    [|reflexivity].
  apply cell_set_nth_other. intros ->. apply Hc.
  apply (index_of_inj _ _ _ _ Hi Hj).
Qed.

Lemma filter_map_swap {A B} (p : B -> bool) (g : A -> B) (l : list A) :
  filter p (map g l) = map g (filter (fun x => p (g x)) l).
Proof.
  induction l as [|x l IH]; [reflexivity|]. simpl.
  destruct (p (g x)); simpl; congruence.
Qed.

(** The column [c] of the rows shown for vessel [v]: the values of the
    rows of the filtered table whose vessel name equals [v]. *)
Lemma column_vessel_data df v c :
  c <> Date_Extracted ->
  column (vessel_data (filtered_df_display df) v) c
  = map (field df c)
        (filter (fun row => py_eq (field df Vessel_Name row) v) (rows df)).
Proof.
  intros Hc. unfold column, vessel_data, select. cbn [rows].
  rewrite rows_display, filter_map_swap, map_map.
  erewrite filter_ext.
  - apply map_ext. intros row.
    change (field (mkdf ?cs ?l) c ?r) with (field (filtered_df_display df) c r).
    apply field_display; exact Hc.
  - intros row. cbv beta. rewrite field_display; [reflexivity|discriminate].
Qed.

Lemma expanders_sums display : forall vs es,
  expanders display vs = Some es ->
  map total_jobs es
  = map (fun v => Report.sum (column (vessel_data display v)
                                     Total_Count_of_Jobs)) vs
  /\ map new_jobs es
     = map (fun v => Report.sum (column (vessel_data display v)
                                        New_Job_Count)) vs.
Proof.
  induction vs as [|v vs IH]; intros es H; simpl in H.
  - inversion H. split; reflexivity.
  - destruct (expander_of display v) as [e|] eqn:He; [|discriminate].
    destruct (expanders display vs) as [es'|]; [|discriminate].
    inversion H; subst es; clear H.
    destruct (IH es' eq_refl) as [Ht Hn].
    unfold expander_of in He.
    destruct (sort_values_desc _ _) as [t|]; [|discriminate].
    inversion He; subst e; clear He.
    simpl. rewrite Ht, Hn. split; reflexivity.
Qed.

Lemma column_sum_some df c T :
  column_sum df c = Some T -> Report.sum (column df c) = Some T.
Proof.
  unfold column_sum, getitem, column, field.
  destruct (index_of c (columns df)); [auto|discriminate].
Qed.

(** The per-vessel sums of one count column add up to its total. *)
Lemma per_vessel_sums_add_up df c vs T :
  c <> Date_Extracted ->
  vessels_present df ->
  sorted (unique (column df Vessel_Name)) = Some vs ->
  column_sum df c = Some T ->
  sum_over
    (map (fun v => Report.sum (column (vessel_data (filtered_df_display df) v)
                                      c)) vs)
  = Some T.
Proof.
  intros Hc Hpresent Hsorted Hsum.
  apply sorted_perm in Hsorted.
  erewrite map_ext
    by (intros v; rewrite (column_vessel_data df v c Hc); reflexivity).
  apply (grouped_sum (field df c) (field df Vessel_Name)).
  - eapply Permutation_NoDup; [exact Hsorted|]. apply unique_acc_nodup.
  - intros r Hr. split; [|apply Hpresent; exact Hr].
    eapply Permutation_in; [exact Hsorted|]. apply unique_in.
    unfold column. apply in_map. exact Hr.
  - apply column_sum_some. exact Hsum.
Qed.

Lemma vessels_present_check df :
  forallb (fun row => negb (is_missing (field df Vessel_Name row))) (rows df)
  = true ->
  vessels_present df.
Proof.
  intros H row Hin. rewrite forallb_forall in H. specialize (H row Hin).
  destruct (is_missing (field df Vessel_Name row)); [discriminate|reflexivity].
Qed.

(** C7 (amended).  For a filtered table in which no vessel name is
    missing and whose counts are integers (the totals of the pie chart
    exist), the sums shown per vessel add up to the totals of the whole
    table, for both count columns. *)
Theorem per_vessel_sums_equal_totals df es total_jobs_all new_jobs_all existing :
  vessels_present df ->
  per_vessel_breakdown df = Some es ->
  create_jobs_pie_chart df = Some (total_jobs_all, new_jobs_all, existing) ->
  sum_over (map total_jobs es) = Some total_jobs_all
  /\ sum_over (map new_jobs es) = Some new_jobs_all.
Proof.
  intros Hpresent Hes Hpie.
  unfold per_vessel_breakdown in Hes.
  destruct (sorted (unique (column df Vessel_Name))) as [vs|] eqn:Hvs;
    [|discriminate].
  destruct (expanders_sums _ _ _ Hes) as [Ht Hn].
  unfold create_jobs_pie_chart in Hpie.
  destruct (column_sum df Total_Count_of_Jobs) as [T|] eqn:HT; [|discriminate].
  destruct (column_sum df New_Job_Count) as [N|] eqn:HN; [|discriminate].
  inversion Hpie; subst; clear Hpie.
  rewrite Ht, Hn. split.
  - apply per_vessel_sums_add_up; auto. discriminate.
  - apply per_vessel_sums_add_up; auto. discriminate.
Qed.

Lemma per_vessel_sums_equal_totals_witness :
  let table := mkdf [lit "Vessel"; lit "Status"]
                    [[PStr (lit "Titan"); PStr (lit "New")];
                     [PStr (lit "Titan"); PStr (lit "Done")]] in
  let other := mkdf [lit "Vessel"; lit "Status"]
                    [[PStr (lit "Argo"); PStr (lit "New")]] in
  let df := build_table
              [mkfile (Some (lit "jobs 01032024.csv")) (Some table);
               mkfile (Some (lit "jobs 02012024.csv")) (Some other);
               mkfile (Some (lit "more 05012024.csv")) (Some table)] in
  exists es,
    per_vessel_breakdown df = Some es
    /\ sum_over (map total_jobs es) = Some 5%Z
    /\ sum_over (map new_jobs es) = Some 3%Z.
Proof.
  intros table other df.
  destruct (per_vessel_breakdown df) as [es|] eqn:Hes;
    [|vm_compute in Hes; discriminate Hes].
  exists es. split; [reflexivity|].
  apply (per_vessel_sums_equal_totals df es 5%Z 3%Z 2%Z).
  - apply vessels_present_check. vm_compute. reflexivity.
  - exact Hes.
  - vm_compute. reflexivity.
Defined.

(** C7 as stated fails: a file whose first vessel cell is empty gives a
    row with a missing vessel name; [unique] lists the missing value, no
    row compares equal to it, and the only expander shows 0 jobs while
    the table totals 1. *)
Lemma per_vessel_sums_miss_unnamed_vessel :
  ~ (forall df es total_jobs_all new_jobs_all existing,
        rows df <> [] ->
        per_vessel_breakdown df = Some es ->
        create_jobs_pie_chart df
        = Some (total_jobs_all, new_jobs_all, existing) ->
        sum_over (map total_jobs es) = Some total_jobs_all
        /\ sum_over (map new_jobs es) = Some new_jobs_all).
Proof.
  intros H.
  set (table := mkdf [lit "Vessel"; lit "Status"] [[PNaN; PStr (lit "New")]]).
  set (df := apply_filters [] [mkdate 2024 2 1; mkdate 2024 2 1]
               (build_table [mkfile (Some (lit "01022024.csv")) (Some table)])).
  destruct (per_vessel_breakdown df) as [es|] eqn:Hes;
    [|vm_compute in Hes; discriminate Hes].
  assert (Hne : rows df <> []) by (vm_compute; discriminate).
  assert (Hpie : create_jobs_pie_chart df = Some (1, 1, 0)%Z)
    by (vm_compute; reflexivity).
  destruct (H df es 1%Z 1%Z 0%Z Hne Hes Hpie) as [Ht _].
  vm_compute in Hes. inversion Hes; subst es.
  vm_compute in Ht. discriminate Ht.
Qed.

(* ================================================================== *)
(** * Proofs: the widths of the report of the app                      *)
(* ================================================================== *)

Lemma length_set_nth v : forall i row,
  i < length row -> length (set_nth i v row) = length row.
Proof.
  induction i as [|i IH]; intros [|x row] H; simpl in *; try lia.
  rewrite IH by lia. reflexivity.
Qed.

Lemma rows_apply_filters_incl vf dr df row :
  In row (rows (apply_filters vf dr df)) -> In row (rows df).
Proof.
  rewrite rows_apply_filters, !filter_In. tauto.
Qed.

Lemma build_table_row_length files row :
  files <> [] -> In row (rows (build_table files)) -> length row = 5.
Proof.
  intros Hne Hin. unfold build_table in Hin.
  assert (Hcols : columns (DataFrame_of (summary_data files))
                  = columns_of_code).
  { rewrite <- (columns_build_table files Hne). unfold build_table.
    symmetry. apply columns_map_column. }
  assert (Hidx : index_of Date_Extracted
                          (columns (DataFrame_of (summary_data files)))
                 = Some 4) by (rewrite Hcols; reflexivity).
  rewrite (rows_map_column _ _ _ _ Hidx) in Hin.
  apply in_map_iff in Hin as (r & <- & Hr).
  assert (Hlen : length r = 5).
  { unfold DataFrame_of in Hr, Hcols. cbn [rows columns] in Hr, Hcols.
    apply in_map_iff in Hr as (d & <- & _).
    rewrite length_map, Hcols. reflexivity. }
  rewrite length_set_nth by lia. exact Hlen.
Qed.

(** The table handed to the report has the five headers and five cells in
    each row. *)
Lemma app_table_headed files vf dr :
  files <> [] ->
  headed (filtered_df_display (apply_filters vf dr (build_table files))).
Proof.
  intros Hne.
  assert (Hcols : columns (apply_filters vf dr (build_table files))
                  = columns_of_code).
  { rewrite columns_apply_filters. apply columns_build_table; exact Hne. }
  split.
  - unfold filtered_df_display. rewrite columns_map_column, Hcols.
    intros c [<-|[<-|[<-|[<-|[<-|[]]]]]]; vm_compute; lia.
  - intros row Hin. unfold filtered_df_display in *.
    rewrite columns_map_column, Hcols.
    assert (Hidx : index_of Date_Extracted
                     (columns (apply_filters vf dr (build_table files)))
                   = Some 4) by (rewrite Hcols; reflexivity).
    rewrite (rows_map_column _ _ _ _ Hidx) in Hin.
    apply in_map_iff in Hin as (r & <- & Hr).
    apply rows_apply_filters_incl in Hr.
    pose proof (build_table_row_length files r Hne Hr) as Hlen.
    rewrite length_set_nth by lia. rewrite Hlen. apply Nat.le_refl.
Qed.

(** In the report of the app the width of a column is the longest text
    shown in it, header included, plus 2, whether an empty cell is counted
    as the text "None" or as no text. *)
Lemma app_report_widths files vf dr j col :
  files <> [] ->
  let ws := excel_report (apply_filters vf dr (build_table files)) in
  nth_error (ws_columns ws) j = Some col ->
  nth_error (column_widths ws) j = Some (list_max (map text_length col) + 2)
  /\ list_max (map text_length col) = list_max (map value_length col).
Proof.
  intros Hne ws Hcol. subst ws. unfold excel_report in *.
  pose proof (column_width_ignores_empty_cells
                _ j col (app_table_headed files vf dr Hne) Hcol) as Ht.
  split; [exact Ht|].
  rewrite (column_width_nth _ j col Hcol), max_length_list_max in Ht.
  injection Ht as Ht. lia.
Qed.

(* ================================================================== *)
(** * Further proofs: the extractor                                    *)
(* ================================================================== *)

(** The status column is counted without an exception, whatever the
    table. *)
Lemma new_job_count_read df :
  exists n,
    (if truthy (sniff (lit "status") df)
     then match getitem df (or_empty (sniff (lit "status") df)) with
          | Some s =>
              let stripped := map (fun v => PStr (strip (astype_str v))) s in
              Some (eq_sum stripped (PStr (lit "New")))
          | None => None
          end
     else Some 0%Z) = Some n.
Proof.
  destruct (sniff (lit "status") df) as [c|] eqn:Hs; [|simpl; eauto].
  destruct (sniff_some _ _ _ status_nonempty Hs) as (Ht & Hin & _).
  rewrite Ht. simpl or_empty. rewrite (getitem_field _ _ Hin). eauto.
Qed.

(** X1.  The processing of a file raises in three cases only: the file
    has no name, the CSV reader raises, or the table has a vessel column
    and no row to read the vessel name from. *)
Theorem try_block_raises_iff f :
  (exists l, try_block f = Raise l)
  <-> name f = None
      \/ read_csv f = None
      \/ exists df c,
           read_csv f = Some df
           /\ sniff (lit "vessel") df = Some c
           /\ rows df = [].
Proof.
  unfold try_block. split.
  - intros [l H].
    destruct (name f) as [s|]; [|left; reflexivity].
    destruct (read_csv f) as [df|]; [|right; left; reflexivity].
    right; right.
    destruct (if truthy (sniff (lit "vessel") df) then _ else _)
      as [v|] eqn:Ev.
    + exfalso.
      destruct (if truthy (sniff (lit "status") df) then _ else _)
        as [n|] eqn:En; [discriminate H|].
      destruct (new_job_count_read df) as [n Hn].
      cbv zeta in En, Hn. congruence.
    + destruct (sniff (lit "vessel") df) as [c|] eqn:Hs; [|discriminate Ev].
      exists df, c. repeat split; auto.
      destruct (rows df) as [|row rest] eqn:Hrows; [reflexivity|].
      exfalso.
      destruct (vessel_name_read df) as [v Hv].
      { right. rewrite Hrows. discriminate. }
      rewrite Hs in Hv. congruence.
  - intros [Hn|[Hr|(df & c & Hr & Hs & Hrows)]].
    + rewrite Hn. eauto.
    + destruct (name f); [|eauto]. rewrite Hr. eauto.
    + destruct (name f); [|eauto]. rewrite Hr, Hs.
      destruct (sniff_some _ _ _ vessel_nonempty Hs) as (Ht & Hin & _).
      rewrite Ht. simpl or_empty. rewrite (getitem_field _ _ Hin), Hrows.
      simpl. eauto.
Qed.

(** The record of a file whose name, table and vessel name are read. *)
Lemma process_returns f s df v :
  name f = Some s -> read_csv f = Some df ->
  (if truthy (sniff (lit "vessel") df)
   then match getitem df (or_empty (sniff (lit "vessel") df)) with
        | Some col => iloc col 0
        | None => None
        end
   else Some (PStr (lit "Vessel column not found"))) = Some v ->
  exists n,
    process_csv_file f
    = [ (File_Name, PStr s); (Vessel_Name, v);
        (Total_Count_of_Jobs, PInt (Z.of_nat (len df)));
        (New_Job_Count, PInt n);
        (Date_Extracted, PStr (format_date (Re.search s))) ]
    /\ (0 <= n <= Z.of_nat (len df))%Z.
Proof.
  intros Hn Hr Hv. unfold process_csv_file, try_block. rewrite Hn, Hr.
  destruct (if truthy (sniff (lit "vessel") df) then _ else _)
    as [v'|] eqn:Ev; [|congruence].
  assert (v' = v) by congruence. subst v'.
  destruct (if truthy (sniff (lit "status") df) then _ else _)
    as [n|] eqn:En.
  - exists n. split; [reflexivity|].
    destruct (truthy (sniff (lit "status") df)).
    + destruct (getitem df (or_empty (sniff (lit "status") df)))
        as [col|] eqn:Hg; [|discriminate En].
      cbv zeta in En. injection En as <-.
      pose proof (eq_sum_bounds
                    (map (fun v => PStr (strip (astype_str v))) col)
                    (PStr (lit "New"))) as Hb.
      rewrite length_map, (getitem_length _ _ _ Hg) in Hb. exact Hb.
    + injection En as <-. lia.
  - destruct (new_job_count_read df) as [n Hcount].
    cbv zeta in En, Hcount. congruence.
Qed.

(** X2.  For a file processed without an exception, the vessel name is the
    value the first row has in the sniffed vessel column, and the text
    "Vessel column not found" when no header contains "vessel" in any
    case. *)
Theorem vessel_name_of_processed_file f s df :
  processed f s df ->
  (forall c,
      sniff (lit "vessel") df = Some c ->
      exists row rest,
        rows df = row :: rest
        /\ get Vessel_Name (process_csv_file f) = Some (field df c row))
  /\ (no_column_contains (lit "vessel") df ->
      get Vessel_Name (process_csv_file f)
      = Some (PStr (lit "Vessel column not found"))).
Proof.
  intros (Hn & Hr & Hv). split.
  - intros c Hs. destruct Hv as [Hv|Hv]; [congruence|].
    destruct (sniff_some _ _ _ vessel_nonempty Hs) as (Ht & Hin & _).
    destruct (rows df) as [|row rest] eqn:Hrows; [congruence|].
    exists row, rest. split; [reflexivity|].
    destruct (process_returns f s df (field df c row) Hn Hr) as (n & -> & _);
      [|reflexivity].
    rewrite Hs, Ht. simpl or_empty. rewrite (getitem_field _ _ Hin), Hrows.
    reflexivity.
  - intros Hno. apply sniff_none in Hno.
    destruct (process_returns f s df (PStr (lit "Vessel column not found"))
                              Hn Hr) as (n & -> & _); [|reflexivity].
    rewrite Hno. reflexivity.
Qed.

Lemma vessel_name_of_processed_file_witness :
  let df := mkdf [lit "Job"; lit "VESSEL_name"]
                 [[PInt 1; PStr (lit "Titan")]; [PInt 2; PStr (lit "Argo")]] in
  get Vessel_Name (process_csv_file (mkfile (Some (lit "jobs.csv")) (Some df)))
  = Some (PStr (lit "Titan")).
Proof.
  intros df.
  destruct (proj1 (vessel_name_of_processed_file
                     (mkfile (Some (lit "jobs.csv")) (Some df))
                     (lit "jobs.csv") df
                     (conj eq_refl (conj eq_refl
                        (or_intror (fun H => @nil_cons _ _ _ (eq_sym H))))))
                  (lit "VESSEL_name") eq_refl)
    as (row & rest & Hrows & Hget).
  injection Hrows as <- _. exact Hget.
Defined.

(** X3.  Column sniffing takes the leftmost header that contains the word
    once lowercased: no header before it contains it. *)
Theorem sniff_takes_leftmost sub df c :
  sniff sub df = Some c ->
  exists before after,
    columns df = before ++ c :: after
    /\ contains sub (lower c) = true
    /\ Forall (fun x => contains sub (lower x) = false) before.
Proof.
  unfold sniff. induction (columns df) as [|x cols IH]; [discriminate|].
  simpl. destruct (contains sub (lower x)) eqn:E.
  - intros H; inversion H; subst. exists [], cols. repeat split; auto.
  - intros H. destruct (IH H) as (before & after & -> & Hc & Hb).
    exists (x :: before), after. repeat split; auto.
Qed.

Lemma sniff_takes_leftmost_witness :
  exists before after,
    [lit "Id"; lit "Job Status"; lit "status2"]
    = before ++ lit "Job Status" :: after
    /\ contains (lit "status") (lower (lit "Job Status")) = true
    /\ Forall (fun x => contains (lit "status") (lower x) = false) before.
Proof.
  exact (sniff_takes_leftmost
           (lit "status")
           (mkdf [lit "Id"; lit "Job Status"; lit "status2"] [])
           (lit "Job Status") eq_refl).
Defined.

Lemma format_date_shape m :
  (forall g1 g2 g3, m = Some (g1, g2, g3) ->
                    length g1 = 2 /\ length g2 = 2 /\ length g3 = 4
                    /\ Forall (fun c => is_digit c = true) (g1 ++ g2 ++ g3)) ->
  format_date m = lit "Unknown" \/ date_shaped (format_date m).
Proof.
  intros H. destruct m as [[[g1 g2] g3]|]; [|left; reflexivity].
  right. destruct (H g1 g2 g3 eq_refl) as (L1 & L2 & L3 & Hd).
  do 2 (destruct g1 as [|? g1]; [discriminate|]). destruct g1; [|discriminate].
  do 2 (destruct g2 as [|? g2]; [discriminate|]). destruct g2; [|discriminate].
  do 4 (destruct g3 as [|? g3]; [discriminate|]). destruct g3; [|discriminate].
  unfold date_shaped. do 8 eexists. split; [reflexivity|].
  cbn [app] in Hd.
  repeat match goal with
         | H : Forall _ (_ :: _) |- _ => inversion H; clear H; subst
         end.
  cbn [forallb].
  repeat match goal with
         | H : is_digit _ = true |- _ => rewrite H; clear H
         end.
  reflexivity.
Qed.

(** X4.  Whatever the file, the date of its record is the text "Unknown"
    or a text of the shape DD-MM-YYYY, ten characters of digits and
    dashes: the only two shapes the coercion of the table has to read. *)
Theorem extracted_date_is_unknown_or_shaped f :
  exists t,
    extracted_date f = Some (PStr t)
    /\ (t = lit "Unknown" \/ date_shaped t).
Proof.
  destruct (name f) as [s|] eqn:Hn.
  - exists (format_date (Re.search s)).
    split; [apply extracted_date_formatted; exact Hn|].
    apply format_date_shape. intros g1 g2 g3 Hs.
    unfold Re.search in Hs.
    destruct (search_from_some _ _ _ Hs) as (k & _ & Hm & _).
    destruct (match_here_some _ _ _ _ _ Hm) as (post & _ & Hl & Hd & _ & _
                                                 & E1 & E2 & E3).
    repeat split; auto.
    + rewrite E1. rewrite length_firstn. lia.
    + rewrite E2. rewrite length_firstn, length_skipn. lia.
    + rewrite E3. rewrite length_skipn. lia.
  - exists (lit "Unknown"). split; [|left; reflexivity].
    unfold extracted_date, process_csv_file, try_block. rewrite Hn.
    reflexivity.
Qed.

(* ================================================================== *)
(** * Further proofs: the table                                        *)
(* ================================================================== *)

Lemma summary_data_map files : summary_data files = map process_csv_file files.
Proof. induction files; simpl; congruence. Qed.

Lemma all_keys_summary files :
  files <> [] -> all_keys (summary_data files) = columns_of_code.
Proof.
  intros Hne. apply all_keys_of_records; [|apply summary_data_keys].
  destruct files; [congruence|discriminate].
Qed.

(** The rows of the table, file by file. *)
Lemma build_table_rows files :
  files <> [] -> rows (build_table files) = map row_of files.
Proof.
  intros Hne. unfold build_table.
  assert (Hidx : index_of Date_Extracted
                          (columns (DataFrame_of (summary_data files)))
                 = Some 4).
  { unfold DataFrame_of. cbn [columns]. rewrite (all_keys_summary _ Hne).
    reflexivity. }
  rewrite (rows_map_column _ _ _ _ Hidx).
  unfold DataFrame_of. cbn [rows]. rewrite (all_keys_summary _ Hne).
  rewrite summary_data_map, !map_map. apply map_ext. intros f. reflexivity.
Qed.



(** ** The date shown is the date read *)

Lemma is_digit_in c : is_digit c = true -> In c digit_chars.
Proof.
  destruct c as [b0 b1 b2 b3 b4 b5 b6 b7].
  destruct b0, b1, b2, b3, b4, b5, b6, b7; intros H;
    try discriminate H; simpl; tauto.
Qed.

Lemma two_digits_round_trip : digits_round_trip 2 digit_chars [] = true.
Proof. vm_compute. reflexivity. Qed.

Lemma four_digits_round_trip : digits_round_trip 4 digit_chars [] = true.
Proof. vm_compute. reflexivity. Qed.

Lemma digits_round_trip_spec n ds : forall acc t,
  digits_round_trip n ds acc = true ->
  length t = n -> Forall (fun c => In c ds) t ->
  pad (length (acc ++ t)) (str_of_int (number (acc ++ t))) = acc ++ t.
Proof.
  induction n as [|n IH]; intros acc t H Hl Ht.
  - destruct t; [|discriminate]. rewrite app_nil_r.
    apply eqb_eq. exact H.
  - destruct t as [|c t]; [discriminate|]. inversion Ht; subst.
    simpl in H. rewrite forallb_forall in H.
    replace (acc ++ c :: t) with ((acc ++ [c]) ++ t)
      by (rewrite <- app_assoc; reflexivity).
    apply IH; auto.
Qed.

Lemma pad_digits n t :
  digits_round_trip n digit_chars [] = true ->
  length t = n -> forallb is_digit t = true ->
  pad n (str_of_int (number t)) = t.
Proof.
  intros H Hl Hd.
  pose proof (digits_round_trip_spec n digit_chars [] t H Hl) as E.
  simpl in E. rewrite Hl in E. apply E.
  rewrite forallb_forall in Hd. apply Forall_forall.
  intros c Hc. apply is_digit_in. apply Hd. exact Hc.
Qed.

Ltac digits_known :=
  cbn [forallb];
  repeat match goal with
         | H : is_digit ?c = true |- context [is_digit ?c] => rewrite H
         end;
  reflexivity.

(** X6.  When the coercion reads a date out of a text, formatting that
    date for display gives the text back: a dated file is shown with
    exactly the DD-MM-YYYY text extracted from its name. *)
Theorem displayed_date_is_extracted_text t d :
  to_datetime (PStr t) = PDate d -> strftime (PDate d) = PStr t.
Proof.
  intros H.
  do 10 (destruct t as [|? t]; [discriminate H|]).
  destruct t; [|discriminate H].
  cbn [to_datetime] in H.
  destruct (forallb is_digit [a; a0; a2; a3; a5; a6; a7; a8]
            && eqb_char a1 "-" && eqb_char a4 "-") eqn:E; [|discriminate H].
  apply andb_true_iff in E as [E E4]. apply andb_true_iff in E as [Ed E1].
  apply Ascii.eqb_eq in E1, E4. subst a1 a4.
  destruct (_ && in_bounds _); [|discriminate H].
  injection H as <-. cbn [forallb] in Ed.
  repeat (apply andb_true_iff in Ed; destruct Ed as [? Ed]).
  unfold strftime. cbn [day month year].
  rewrite (pad_digits 2 [a; a0] two_digits_round_trip eq_refl)
    by digits_known.
  rewrite (pad_digits 2 [a2; a3] two_digits_round_trip eq_refl)
    by digits_known.
  rewrite (pad_digits 4 [a5; a6; a7; a8] four_digits_round_trip eq_refl)
    by digits_known.
  reflexivity.
Qed.

Lemma displayed_date_is_extracted_text_witness :
  strftime (PDate (mkdate 2024 2 29)) = PStr (lit "29-02-2024").
Proof.
  apply (displayed_date_is_extracted_text (lit "29-02-2024")). reflexivity.
Defined.

(** ** The totals of the pie chart *)

(** The row of a file processed without an exception holds two integer
    counts, the new jobs within the total. *)
Lemma row_of_processed f s df :
  processed f s df ->
  exists v n d,
    row_of f = [PStr s; v; PInt (Z.of_nat (len df)); PInt n; d]
    /\ (0 <= n <= Z.of_nat (len df))%Z.
Proof.
  intros (Hn & Hr & Hv).
  destruct (vessel_name_read df Hv) as [v Hread].
  destruct (process_returns f s df v Hn Hr Hread) as (n & Hrec & Hb).
  exists v, n, (to_datetime (PStr (format_date (Re.search s)))).
  split; [|exact Hb]. unfold row_of. rewrite Hrec. reflexivity.
Qed.

Lemma sums_of_counted_rows rs :
  Forall counted rs ->
  exists T N,
    Report.sum (map (cell 2) rs) = Some T
    /\ Report.sum (map (cell 3) rs) = Some N
    /\ (0 <= N <= T)%Z.
Proof.
  induction 1 as [|row rs (n & t & Hn & Ht & Hb) _ (T & N & HT & HN & HB)].
  - exists 0%Z, 0%Z. repeat split; try reflexivity; lia.
  - exists (t + T)%Z, (n + N)%Z. cbn [map Report.sum].
    rewrite Hn, Ht, HT, HN. repeat split; lia.
Qed.

(** X7.  When every uploaded file is processed without an exception, the
    pie chart has its values whatever the filters keep: the new jobs are
    between 0 and the total, so the slice of the existing jobs, total
    minus new, is never negative. *)
Theorem pie_chart_of_processed_files files vessel_filter date_range :
  files <> [] ->
  (forall f, In f files -> exists s df, processed f s df) ->
  exists total_jobs new_jobs,
    create_jobs_pie_chart
      (apply_filters vessel_filter date_range (build_table files))
    = Some (total_jobs, new_jobs, (total_jobs - new_jobs)%Z)
    /\ (0 <= new_jobs <= total_jobs)%Z.
Proof.
  intros Hne Hall.
  pose proof (columns_build_table files Hne) as Hcols.
  pose proof (build_table_rows files Hne) as Hrows.
  set (fdf := apply_filters vessel_filter date_range (build_table files)).
  assert (Hc : columns fdf = columns_of_code)
    by (unfold fdf; rewrite columns_apply_filters; exact Hcols).
  assert (Hgood : Forall counted (rows fdf)).
  { apply Forall_forall. intros row Hin.
    apply rows_apply_filters_incl in Hin. rewrite Hrows in Hin.
    apply in_map_iff in Hin as (f & <- & Hf).
    destruct (Hall f Hf) as (s & df & Hp).
    destruct (row_of_processed f s df Hp) as (v & n & d & -> & Hb).
    exists n, (Z.of_nat (len df)).
    split; [reflexivity|split; [reflexivity|exact Hb]]. }
  destruct (sums_of_counted_rows _ Hgood) as (T & N & HT & HN & HB).
  exists T, N. split; [|exact HB].
  unfold create_jobs_pie_chart, column_sum, getitem. rewrite Hc.
  change (index_of Total_Count_of_Jobs columns_of_code) with (Some 2).
  change (index_of New_Job_Count columns_of_code) with (Some 3).
  cbv beta iota. rewrite HT, HN. reflexivity.
Qed.

Lemma pie_chart_of_processed_files_witness :
  let table := mkdf [lit "Vessel"; lit "Status"]
                    [[PStr (lit "Titan"); PStr (lit "New")];
                     [PStr (lit "Titan"); PStr (lit "Done")]] in
  let files := [mkfile (Some (lit "jobs 01032024.csv")) (Some table)] in
  exists total_jobs new_jobs,
    create_jobs_pie_chart (apply_filters [] [] (build_table files))
    = Some (total_jobs, new_jobs, (total_jobs - new_jobs)%Z)
    /\ (0 <= new_jobs <= total_jobs)%Z.
Proof.
  intros table files.
  apply (pie_chart_of_processed_files files [] []); [discriminate|].
  intros f [<-|[]]. exists (lit "jobs 01032024.csv"), table.
  repeat split. right. discriminate.
Defined.

(** ** The filters *)

Lemma field_same_columns a b c row :
  columns a = columns b -> field a c row = field b c row.
Proof. unfold field. intros ->. reflexivity. Qed.

Lemma filter_all {A} (p : A -> bool) (l : list A) :
  (forall x, In x l -> p x = true) -> filter p l = l.
Proof.
  induction l as [|x l IH]; intros H; [reflexivity|]. simpl.
  rewrite (H x (or_introl eq_refl)). f_equal. apply IH.
  intros y Hy. apply H. right. exact Hy.
Qed.

(** X8.  Filtering is idempotent: applying the same two filters to a
    table already filtered by them changes nothing. *)
Theorem apply_filters_idempotent vessel_filter date_range df :
  apply_filters vessel_filter date_range
                (apply_filters vessel_filter date_range df)
  = apply_filters vessel_filter date_range df.
Proof.
  set (fdf := apply_filters vessel_filter date_range df).
  assert (Hc : columns fdf = columns df) by apply columns_apply_filters.
  assert (Hrows : rows (apply_filters vessel_filter date_range fdf)
                  = rows fdf).
  { rewrite rows_apply_filters.
    rewrite (filter_all (vessel_test vessel_filter fdf)).
    - apply filter_all. intros row Hin. unfold fdf in Hin.
      rewrite rows_apply_filters in Hin. apply filter_In in Hin as [_ Hd].
      unfold date_test in *. destruct date_range as [|a [|b [|? ?]]]; auto.
      rewrite (field_same_columns fdf df _ _ Hc). exact Hd.
    - intros row Hin. unfold fdf in Hin.
      rewrite rows_apply_filters in Hin. apply filter_In in Hin as [Hin _].
      apply filter_In in Hin as [_ Hv].
      unfold vessel_test in *. destruct vessel_filter; auto.
      rewrite (field_same_columns fdf df _ _ Hc). exact Hv. }
  assert (Hcols : columns (apply_filters vessel_filter date_range fdf)
                  = columns fdf) by apply columns_apply_filters.
  destruct (apply_filters vessel_filter date_range fdf) as [cs rs].
  destruct fdf as [cs' rs']. simpl in *. congruence.
Qed.

(* ================================================================== *)
(** * Further proofs: the report                                       *)
(* ================================================================== *)










(* ================================================================== *)
(** * Further proofs: sorting                                          *)
(* ================================================================== *)

Section InsertionFacts.
Variable A : Type.
Variable stays : A -> A -> option bool.

Lemma insert_by_perm x : forall l r,
  insert_by stays x l = Some r -> Permutation (x :: l) r.
Proof.
  induction l as [|y l IH]; intros r H; simpl in H.
  - inversion H. apply Permutation_refl.
  - destruct (stays y x) as [[|]|];
      [|inversion H; apply Permutation_refl|discriminate].
    destruct (insert_by stays x l) as [r'|]; [|discriminate].
    inversion H; subst. eapply perm_trans; [apply perm_swap|].
    apply perm_skip. apply IH. reflexivity.
Qed.

Lemma sort_by_perm : forall l r, sort_by stays l = Some r -> Permutation l r.
Proof.
  induction l as [|x l IH]; intros r H; simpl in H.
  - inversion H. apply perm_nil.
  - destruct (sort_by stays l) as [r'|]; [|discriminate].
    eapply perm_trans; [apply perm_skip, IH; reflexivity|].
    apply insert_by_perm. exact H.
Qed.

(** On elements that compare with each other, and asymmetrically, the
    sort returns, and returns a sorted list. *)
Variable P : A -> Prop.
Hypothesis P_total :
  forall a b, P a -> P b -> exists t, stays a b = Some t.
Hypothesis P_asym :
  forall a b, P a -> P b -> stays a b = Some true -> stays b a = Some false.

Lemma insert_by_sorted x : forall l,
  P x -> Forall P l -> Sorted (in_order stays) l ->
  exists r,
    insert_by stays x l = Some r
    /\ Sorted (in_order stays) r /\ Forall P r
    /\ (hd_error r = Some x \/ hd_error r = hd_error l).
Proof.
  induction l as [|y l IH]; intros Hx Hl Hs.
  - exists [x].
    split; [reflexivity|]. split; [|split; [constructor; auto|left; auto]].
    repeat constructor.
  - inversion Hl as [|? ? Hy Hl']; subst.
    inversion Hs as [|? ? Hs' Hhd]; subst.
    simpl. destruct (P_total y x Hy Hx) as [[|] E]; rewrite E.
    + destruct (IH Hx Hl' Hs') as (r & -> & Hr & Hp & Hh).
      exists (y :: r).
      split; [reflexivity|]. split; [|split; [constructor; auto|right; auto]].
      constructor; [exact Hr|].
      destruct r as [|z r]; [constructor|]. constructor.
      destruct Hh as [Hh|Hh]; simpl in Hh.
      * injection Hh as ->. unfold in_order. apply P_asym; auto.
      * destruct l as [|w l]; [discriminate|]. injection Hh as ->.
        inversion Hhd; assumption.
    + exists (x :: y :: l).
      split; [reflexivity|]. split; [|split; [constructor; auto|left; auto]].
      constructor; [exact Hs|]. constructor. exact E.
Qed.

Lemma sort_by_sorted : forall l,
  Forall P l ->
  exists r,
    sort_by stays l = Some r
    /\ Sorted (in_order stays) r /\ Forall P r /\ Permutation l r.
Proof.
  induction l as [|x l IH]; intros Hl.
  - exists []. repeat split; constructor.
  - inversion Hl as [|? ? Hx Hl']; subst.
    destruct (IH Hl') as (r' & Hr' & Hs & Hp & Hperm).
    destruct (insert_by_sorted x r' Hx Hp Hs) as (r & Hr & Hsr & Hpr & _).
    exists r. simpl. rewrite Hr'. repeat split; auto.
    eapply perm_trans; [apply perm_skip; exact Hperm|].
    apply insert_by_perm. exact Hr.
Qed.
End InsertionFacts.

(** The three sorts of the code are this insertion sort. *)
Lemma sorted_sort_by l : sorted l = sort_by py_lt l.
Proof.
  assert (Hi : forall x r, insert x r = insert_by py_lt x r).
  { intros x r. induction r as [|y r IH]; [reflexivity|].
    simpl. rewrite IH. reflexivity. }
  induction l as [|x l IH]; [reflexivity|]. simpl. rewrite IH.
  destruct (sort_by py_lt l); [apply Hi|reflexivity].
Qed.

Lemma sort_desc_sort_by key l :
  sort_desc key l = sort_by (fun y x => py_lt (key x) (key y)) l.
Proof.
  assert (Hi : forall x r,
             insert_desc key x r
             = insert_by (fun y x => py_lt (key x) (key y)) x r).
  { intros x r. induction r as [|y r IH]; [reflexivity|].
    simpl. rewrite IH. reflexivity. }
  induction l as [|x l IH]; [reflexivity|]. simpl. rewrite IH.
  destruct (sort_by _ l); [apply Hi|reflexivity].
Qed.

Lemma sort_asc_sort_by key l :
  sort_asc key l = sort_by (fun y x => py_lt (key y) (key x)) l.
Proof.
  assert (Hi : forall x r,
             insert_asc key x r
             = insert_by (fun y x => py_lt (key y) (key x)) x r).
  { intros x r. induction r as [|y r IH]; [reflexivity|].
    simpl. rewrite IH. reflexivity. }
  induction l as [|x l IH]; [reflexivity|]. simpl. rewrite IH.
  destruct (sort_by _ l); [apply Hi|reflexivity].
Qed.

(** Texts compare with each other, and so do timestamps. *)
Lemma text_lt_total a b : is_text a -> is_text b -> exists t, py_lt a b = Some t.
Proof. intros [x ->] [y ->]. simpl. eauto. Qed.

Lemma text_lt_asym a b :
  is_text a -> is_text b -> py_lt a b = Some true -> py_lt b a = Some false.
Proof.
  intros [x ->] [y ->] H. simpl in *. injection H as H.
  rewrite (ltb_asym _ _ H). reflexivity.
Qed.

Lemma date_ltb_asym a b : date_ltb a b = true -> date_ltb b a = false.
Proof.
  destruct a as [y m d], b as [y' m' d']. unfold date_ltb. cbn [year month day].
  intros H. apply not_true_iff_false. intros H'.
  repeat rewrite ?orb_true_iff, ?andb_true_iff, ?Z.ltb_lt, ?Z.eqb_eq in H, H'.
  lia.
Qed.

Lemma date_lt_total a b : is_date a -> is_date b -> exists t, py_lt a b = Some t.
Proof. intros [x ->] [y ->]. simpl. eauto. Qed.

Lemma date_lt_asym a b :
  is_date a -> is_date b -> py_lt a b = Some true -> py_lt b a = Some false.
Proof.
  intros [x ->] [y ->] H. simpl in *. injection H as H.
  rewrite (date_ltb_asym _ _ H). reflexivity.
Qed.

(* ================================================================== *)
(** * Further proofs: the per-vessel breakdown and the metrics         *)
(* ================================================================== *)

Lemma nth_set_nth i v row : cell i (set_nth i v row) = v.
Proof.
  unfold cell. apply nth_error_nth. apply nth_error_set_nth.
Qed.

(** The date of a row of the display table is a text or NaN. *)
Lemma display_date_value df r :
  is_text (field (filtered_df_display df) Date_Extracted (display_row df r))
  \/ field (filtered_df_display df) Date_Extracted (display_row df r) = PNaN.
Proof.
  unfold field, filtered_df_display. rewrite columns_map_column.
  unfold display_row.
  destruct (index_of Date_Extracted (columns df)) as [i|]; [|right; reflexivity].
  rewrite nth_set_nth. destruct (cell i r); simpl; auto.
  left. eexists. reflexivity.
Qed.

(** The date of a row of the table of an expander, before it is sorted. *)
Lemma detail_date_value df v row :
  In row (rows (project detail_columns
                        (vessel_data (filtered_df_display df) v))) ->
  is_text (cell 1 row) \/ cell 1 row = PNaN.
Proof.
  unfold project. cbn [rows]. intros Hin.
  apply in_map_iff in Hin as (r & <- & Hr).
  unfold vessel_data, select in Hr. cbn [rows] in Hr.
  apply filter_In in Hr as [Hr _]. rewrite rows_display in Hr.
  apply in_map_iff in Hr as (r0 & <- & _).
  assert (E : cell 1 (map (fun c =>
                             field (vessel_data (filtered_df_display df) v)
                                   c (display_row df r0)) detail_columns)
              = field (filtered_df_display df) Date_Extracted
                      (display_row df r0)) by reflexivity.
  rewrite E. apply display_date_value.
Qed.

Lemma filter_partition_perm {A} (p : A -> bool) (l : list A) :
  Permutation l (filter p l ++ filter (fun x => negb (p x)) l).
Proof.
  induction l as [|x l IH]; [constructor|]. simpl.
  destruct (p x); simpl.
  - apply perm_skip. exact IH.
  - apply Permutation_cons_app. exact IH.
Qed.

(** The table of an expander: sorted, it holds the same rows, those with
    a date text first, in descending order of the text. *)
Lemma sort_details df v :
  let data := project detail_columns
                      (vessel_data (filtered_df_display df) v) in
  exists dated undated,
    sort_values_desc Date_Extracted data
    = Some (mkdf detail_columns (dated ++ undated))
    /\ descending (cell 1) dated
    /\ Forall (fun row => is_text (cell 1 row)) dated
    /\ Forall (fun row => cell 1 row = PNaN) undated
    /\ Permutation (rows data) (dated ++ undated).
Proof.
  intros data. unfold sort_values_desc.
  change (field data Date_Extracted) with (cell 1).
  set (present := filter (fun row => negb (is_missing (cell 1 row)))
                         (rows data)).
  set (missing := filter (fun row => is_missing (cell 1 row)) (rows data)).
  assert (Hvals : forall row, In row (rows data) ->
                              is_text (cell 1 row) \/ cell 1 row = PNaN)
    by (intros row; apply detail_date_value).
  assert (Hp : Forall (fun row => is_text (cell 1 row)) present).
  { apply Forall_forall. intros row Hin. apply filter_In in Hin as [Hin Hm].
    destruct (Hvals row Hin) as [Ht|Hn]; [exact Ht|].
    rewrite Hn in Hm. discriminate. }
  assert (Hm : Forall (fun row => cell 1 row = PNaN) missing).
  { apply Forall_forall. intros row Hin. apply filter_In in Hin as [Hin Hm].
    destruct (Hvals row Hin) as [[t Ht]|Hn]; [|exact Hn].
    rewrite Ht in Hm. discriminate. }
  rewrite sort_desc_sort_by.
  destruct (sort_by_sorted _ (fun y x => py_lt (cell 1 x) (cell 1 y))
                           (fun row => is_text (cell 1 row)))
    with (l := present) as (dated & Hs & Hsorted & Hd & Hperm).
  - intros a b Ha Hb. apply text_lt_total; assumption.
  - intros a b Ha Hb. apply text_lt_asym; assumption.
  - exact Hp.
  - exists dated, missing. rewrite Hs. repeat split; auto.
    eapply perm_trans.
    + apply (filter_partition_perm
               (fun row => negb (is_missing (cell 1 row)))).
    + apply Permutation_app.
      * exact Hperm.
      * unfold missing. erewrite filter_ext; [apply Permutation_refl|].
        intros row. cbv beta. apply negb_involutive.
Qed.

Lemma expander_of_display df v :
  exists e, expander_of (filtered_df_display df) v = Some e
            /\ vessel e = v
            /\ files e = len (vessel_data (filtered_df_display df) v).
Proof.
  destruct (sort_details df v) as (dated & undated & Hs & _).
  unfold expander_of. change [File_Name; Date_Extracted; Total_Count_of_Jobs;
                              New_Job_Count] with detail_columns.
  cbv zeta in Hs. rewrite Hs. eexists. repeat split.
Qed.

Lemma expanders_display df : forall vs,
  exists es,
    expanders (filtered_df_display df) vs = Some es
    /\ map vessel es = vs
    /\ map files es
       = map (fun v => len (vessel_data (filtered_df_display df) v)) vs.
Proof.
  induction vs as [|v vs (es & Hes & Hv & Hf)].
  - exists []. repeat split.
  - destruct (expander_of_display df v) as (e & He & Hve & Hfe).
    exists (e :: es). simpl. rewrite He, Hes, Hve, Hv, Hfe, Hf.
    repeat split.
Qed.

(** X12.  When the vessel names of the filtered table are texts, the
    breakdown is built without an exception and its expanders stand in
    ascending order of the vessel name, one per name and one for every
    name of the table. *)
Theorem vessel_groups_in_ascending_order df :
  (forall row, In row (rows df) -> is_text (field df Vessel_Name row)) ->
  exists es,
    per_vessel_breakdown df = Some es
    /\ ascending (map vessel es)
    /\ NoDup (map vessel es)
    /\ forall v, In v (map vessel es) <-> In v (column df Vessel_Name).
Proof.
  intros Htext. unfold per_vessel_breakdown.
  assert (Hu : Forall is_text (unique (column df Vessel_Name))).
  { apply Forall_forall. intros v Hv. apply (proj1 (unique_in _ _)) in Hv.
    unfold column in Hv. apply in_map_iff in Hv as (row & <- & Hrow).
    apply Htext. exact Hrow. }
  rewrite sorted_sort_by.
  destruct (sort_by_sorted _ py_lt is_text text_lt_total text_lt_asym _ Hu)
    as (vs & -> & Hsorted & _ & Hperm).
  destruct (expanders_display df vs) as (es & -> & Hv & _).
  exists es. rewrite Hv. repeat split.
  - exact Hsorted.
  - eapply Permutation_NoDup; [exact Hperm|]. apply unique_acc_nodup.
  - intros Hin. apply unique_in.
    eapply Permutation_in; [apply Permutation_sym; exact Hperm|exact Hin].
  - intros Hin. eapply Permutation_in; [exact Hperm|].
    apply unique_in. exact Hin.
Qed.

Lemma vessel_groups_in_ascending_order_witness :
  let df := mkdf columns_of_code
                 [[PStr (lit "b.csv"); PStr (lit "Titan"); PInt 2; PInt 1;
                   PNaT];
                  [PStr (lit "a.csv"); PStr (lit "Argo"); PInt 3; PInt 0;
                   PDate (mkdate 2024 2 1)]] in
  exists es,
    per_vessel_breakdown df = Some es
    /\ ascending (map vessel es)
    /\ NoDup (map vessel es)
    /\ forall v, In v (map vessel es) <-> In v (column df Vessel_Name).
Proof.
  intros df. apply (vessel_groups_in_ascending_order df).
  intros row [<-|[<-|[]]]; eexists; reflexivity.
Defined.

(** X13.  The table under an expander holds the rows of its vessel with
    the four columns shown; sorting them never raises, and it puts the
    rows that have a date text first, in descending order of that text
    (the DD-MM-YYYY text, compared character by character), and the rows
    without a date after them. *)
Theorem expander_rows_in_descending_text_order df v :
  exists e dated undated,
    expander_of (filtered_df_display df) v = Some e
    /\ columns (details e) = detail_columns
    /\ rows (details e) = dated ++ undated
    /\ descending (cell 1) dated
    /\ Forall (fun row => is_text (cell 1 row)) dated
    /\ Forall (fun row => cell 1 row = PNaN) undated
    /\ Permutation
         (rows (project detail_columns
                        (vessel_data (filtered_df_display df) v)))
         (rows (details e)).
Proof.
  destruct (sort_details df v) as (dated & undated & Hs & Hd & Ht & Hu & Hp).
  cbv zeta in Hs.
  eexists. exists dated, undated. unfold expander_of.
  change [File_Name; Date_Extracted; Total_Count_of_Jobs; New_Job_Count]
    with detail_columns.
  rewrite Hs. cbn [details columns rows]. repeat split; auto.
Qed.

Lemma list_sum_lengths {A} (p : pyval -> A -> bool) (rs : list A) vs :
  sum_over (map (fun v => Some (Z.of_nat (length (filter (p v) rs)))) vs)
  = Some (Z.of_nat (list_sum (map (fun v => length (filter (p v) rs)) vs))).
Proof.
  induction vs as [|v vs IH]; [reflexivity|].
  cbn [map sum_over list_sum fold_right]. rewrite IH.
  change (fold_right Nat.add 0 (map (fun v => length (filter (p v) rs)) vs))
    with (list_sum (map (fun v => length (filter (p v) rs)) vs)).
  f_equal. lia.
Qed.

Lemma sum_of_ones {A} (l : list A) :
  Report.sum (map (fun _ => PInt 1) l) = Some (Z.of_nat (length l)).
Proof.
  induction l as [|x l IH]; [reflexivity|].
  cbn [map Report.sum length]. rewrite IH. f_equal. lia.
Qed.

(** X14.  When no vessel name is missing, the two metrics agree with the
    breakdown: "Total Vessels" is the number of expanders and "Total
    Files" is the sum of the file counts shown in their titles. *)
Theorem metrics_agree_with_breakdown df es :
  vessels_present df ->
  per_vessel_breakdown df = Some es ->
  length es = total_vessels df
  /\ list_sum (map files es) = total_files df.
Proof.
  intros Hpresent Hes. unfold per_vessel_breakdown in Hes.
  destruct (sorted (unique (column df Vessel_Name))) as [vs|] eqn:Hvs;
    [|discriminate].
  apply sorted_perm in Hvs.
  destruct (expanders_display df vs) as (es' & Hes' & Hv & Hf).
  assert (es' = es) by congruence. subst es'. split.
  - rewrite <- (length_map vessel), Hv.
    rewrite <- (Permutation_length Hvs). unfold total_vessels.
    rewrite filter_all; [reflexivity|].
    intros v Hin. apply (proj1 (unique_in _ _)) in Hin. unfold column in Hin.
    apply in_map_iff in Hin as (row & <- & Hrow).
    rewrite (Hpresent row Hrow). reflexivity.
  - rewrite Hf. unfold total_files.
    assert (Hgroup : forall v,
               len (vessel_data (filtered_df_display df) v)
               = length (filter (fun row => py_eq (field df Vessel_Name row) v)
                                (rows df))).
    { intros v. unfold len, vessel_data, select. cbn [rows].
      rewrite rows_display, filter_map_swap, length_map.
      f_equal. apply filter_ext. intros row.
      rewrite field_display; [reflexivity|discriminate]. }
    erewrite map_ext by (intros v; apply Hgroup).
    assert (Hsum :
              sum_over
                (map (fun v =>
                        Report.sum
                          (map (fun _ => PInt 1)
                               (filter (fun r => py_eq (field df Vessel_Name r) v)
                                       (rows df)))) vs)
              = Some (Z.of_nat (length (rows df)))).
    { apply (grouped_sum (fun _ => PInt 1) (field df Vessel_Name)).
      - eapply Permutation_NoDup; [exact Hvs|]. apply unique_acc_nodup.
      - intros r Hr. split; [|apply Hpresent; exact Hr].
        eapply Permutation_in; [exact Hvs|]. apply unique_in.
        unfold column. apply in_map. exact Hr.
      - apply sum_of_ones. }
    erewrite map_ext in Hsum by (intros v; apply sum_of_ones).
    rewrite (list_sum_lengths
               (fun v r => py_eq (field df Vessel_Name r) v)) in Hsum.
    injection Hsum as Hsum. unfold len. lia.
Qed.

Lemma metrics_agree_with_breakdown_witness :
  let df := mkdf columns_of_code
                 [[PStr (lit "b.csv"); PStr (lit "Titan"); PInt 2; PInt 1;
                   PNaT];
                  [PStr (lit "a.csv"); PStr (lit "Argo"); PInt 3; PInt 0;
                   PDate (mkdate 2024 2 1)];
                  [PStr (lit "c.csv"); PStr (lit "Titan"); PInt 1; PInt 1;
                   PNaT]] in
  exists es,
    per_vessel_breakdown df = Some es
    /\ length es = 2 /\ list_sum (map files es) = 3.
Proof.
  intros df.
  destruct (per_vessel_breakdown df) as [es|] eqn:Hes;
    [|vm_compute in Hes; discriminate Hes].
  exists es. split; [reflexivity|].
  apply (metrics_agree_with_breakdown df es).
  - apply vessels_present_check. vm_compute. reflexivity.
  - exact Hes.
Defined.

(* ================================================================== *)
(** * Further proofs: the charts                                       *)
(* ================================================================== *)

Lemma to_datetime_value v : is_date (to_datetime v) \/ to_datetime v = PNaT.
Proof.
  destruct v as [t| | | |]; try (right; reflexivity).
  do 10 (destruct t as [|? t]; [right; reflexivity|]).
  destruct t; [|right; reflexivity].
  cbn [to_datetime].
  destruct (_ && eqb_char _ _ && eqb_char _ _); [|right; reflexivity].
  destruct (_ && in_bounds _); [left; eexists; reflexivity|right; reflexivity].
Qed.

(** The date column of the table of the app, filtered or not, holds
    timestamps and missing timestamps. *)
Lemma app_dates_coerced files vf dr :
  files <> [] -> dates_coerced (apply_filters vf dr (build_table files)).
Proof.
  intros Hne row Hin.
  rewrite (field_same_columns _ (build_table files))
    by apply columns_apply_filters.
  apply rows_apply_filters_incl in Hin.
  rewrite (build_table_rows files Hne) in Hin.
  apply in_map_iff in Hin as (f & <- & _).
  unfold field. rewrite (columns_build_table files Hne).
  change (index_of Date_Extracted columns_of_code) with (Some 4).
  unfold row_of. cbv beta iota zeta. unfold cell. cbn [nth].
  apply to_datetime_value.
Qed.



Lemma rows_unfiltered df : apply_filters [] [] df = df.
Proof. reflexivity. Qed.


(** X16.  On a table whose dates are coerced, the distribution chart is
    built without an exception and shows one bar pair per row: the rows
    with a date in ascending order of the date, then the rows without
    one; labels, values and tick texts follow that same order and the
    tick positions are 0, 1, ..., one per row. *)
Theorem distribution_chart_is_chronological df :
  dates_coerced df ->
  exists chart dated undated,
    create_vessel_job_distribution_chart df = Some chart
    /\ Permutation (rows df) (dated ++ undated)
    /\ ascending_by (field df Date_Extracted) dated
    /\ Forall (fun row => is_date (field df Date_Extracted row)) dated
    /\ Forall (fun row => field df Date_Extracted row = PNaT) undated
    /\ total_x chart = map (bar_label (lit " - ") df) (dated ++ undated)
    /\ new_x chart = total_x chart
    /\ total_y chart = map (field df Total_Count_of_Jobs) (dated ++ undated)
    /\ new_y chart = map (field df New_Job_Count) (dated ++ undated)
    /\ ticktext chart = map (bar_label (lit "<br>") df) (dated ++ undated)
    /\ tickvals chart = seq 0 (len df).
Proof.
  intros Hdates.
  set (key := field df Date_Extracted).
  set (present := filter (fun row => negb (is_missing (key row))) (rows df)).
  set (missing := filter (fun row => is_missing (key row)) (rows df)).
  assert (Hp : Forall (fun row => is_date (key row)) present).
  { apply Forall_forall. intros row Hin. apply filter_In in Hin as [Hin Hm].
    destruct (Hdates row Hin) as [Hd|Hn]; [exact Hd|].
    unfold key in Hm. rewrite Hn in Hm. discriminate. }
  assert (Hm : Forall (fun row => key row = PNaT) missing).
  { apply Forall_forall. intros row Hin. apply filter_In in Hin as [Hin Hm].
    destruct (Hdates row Hin) as [[d Hd]|Hn]; [|exact Hn].
    unfold key in Hm. rewrite Hd in Hm. discriminate. }
  destruct (sort_by_sorted _ (fun y x => py_lt (key y) (key x))
                           (fun row => is_date (key row)))
    with (l := present) as (dated & Hs & Hsorted & Hd & Hperm).
  { intros a b Ha Hb. apply date_lt_total; assumption. }
  { intros a b Ha Hb. apply date_lt_asym; assumption. }
  { exact Hp. }
  assert (Hall : Permutation (rows df) (dated ++ missing)).
  { eapply perm_trans.
    - apply (filter_partition_perm (fun row => negb (is_missing (key row)))).
    - apply Permutation_app; [exact Hperm|].
      unfold missing. erewrite filter_ext; [apply Permutation_refl|].
      intros row. cbv beta. apply negb_involutive. }
  unfold create_vessel_job_distribution_chart, sort_values.
  fold key. fold present. fold missing.
  rewrite sort_asc_sort_by, Hs.
  eexists. exists dated, missing. split; [reflexivity|].
  cbn [total_x new_x total_y new_y ticktext tickvals].
  split; [exact Hall|]. split; [exact Hsorted|]. split; [exact Hd|].
  split; [exact Hm|]. repeat split.
  unfold len. cbn [rows]. rewrite (Permutation_length Hall). reflexivity.
Qed.

Lemma distribution_chart_is_chronological_witness :
  let files := [mkfile (Some (lit "jobs 01032024.csv")) None;
                mkfile (Some (lit "undated.csv")) None;
                mkfile (Some (lit "jobs 02012024.csv")) None] in
  exists chart dated undated,
    create_vessel_job_distribution_chart (build_table files) = Some chart
    /\ Permutation (rows (build_table files)) (dated ++ undated)
    /\ ascending_by (field (build_table files) Date_Extracted) dated
    /\ tickvals chart = [0; 1; 2].
Proof.
  intros files.
  destruct (distribution_chart_is_chronological (build_table files))
    as (chart & dated & undated & Hc & Hp & Ha & _ & _ & _ & _ & _ & _ & _
        & Ht).
  - rewrite <- (rows_unfiltered (build_table files)).
    apply (app_dates_coerced files [] []). discriminate.
  - exists chart, dated, undated. repeat split; auto.
Defined.

(* ================================================================== *)
(** * Further proofs: edge cases of the filters                        *)
(* ================================================================== *)

Lemma date_leb_antisym a b :
  date_leb a b && date_leb b a = true <-> a = b.
Proof.
  destruct a as [y m d], b as [y' m' d'].
  unfold date_leb, date_ltb. cbn [year month day]. split.
  - intros H. apply andb_true_iff in H as [H1 H2].
    apply negb_true_iff in H1, H2.
    assert (y = y' /\ m = m' /\ d = d') as (-> & -> & ->); [|reflexivity].
    apply not_true_iff_false in H1, H2.
    repeat rewrite ?orb_true_iff, ?andb_true_iff, ?Z.ltb_lt, ?Z.eqb_eq in H1, H2.
    lia.
  - intros H. injection H as -> -> ->.
    rewrite !Z.ltb_irrefl, !Z.eqb_refl. reflexivity.
Qed.

(** X17.  The date range is inclusive at both ends: a range whose two
    ends are the same day keeps exactly the rows dated that day (among
    those the vessel test keeps). *)
Theorem single_day_range_keeps_that_day vessel_filter d df row :
  In row (rows (apply_filters vessel_filter [d; d] df))
  <-> In row (rows df)
      /\ vessel_test vessel_filter df row = true
      /\ field df Date_Extracted row = PDate d.
Proof.
  rewrite rows_apply_filters, !filter_In. cbn [date_test].
  split.
  - intros [[Hin Hv] Hd]. repeat split; auto.
    destruct (field df Date_Extracted row) as [| | |d'|];
      try discriminate Hd.
    cbn [in_range] in Hd. rewrite andb_comm in Hd.
    apply date_leb_antisym in Hd. congruence.
  - intros (Hin & Hv & Hd). repeat split; auto.
    rewrite Hd. cbn [in_range]. apply date_leb_antisym. reflexivity.
Qed.

(** X18.  Selecting every vessel of the table is the same as selecting
    none: with no complete date range the table comes back as it is. *)
Theorem selecting_every_vessel_keeps_all date_range df :
  length date_range <> 2 ->
  apply_filters (unique (column df Vessel_Name)) date_range df = df.
Proof.
  intros Hlen.
  assert (Hrows : rows (apply_filters (unique (column df Vessel_Name))
                                      date_range df) = rows df).
  { rewrite rows_apply_filters.
    rewrite (filter_all (date_test date_range df)).
    - apply filter_all. intros row Hin. unfold vessel_test.
      destruct (unique (column df Vessel_Name)) as [|v vs] eqn:Hu;
        [reflexivity|].
      rewrite <- Hu. unfold isin. apply existsb_same. apply unique_in.
      unfold column. apply in_map. exact Hin.
    - intros row _. unfold date_test.
      destruct date_range as [|a [|b [|c l]]]; try reflexivity.
      simpl in Hlen. congruence. }
  pose proof (columns_apply_filters (unique (column df Vessel_Name))
                                    date_range df) as Hcols.
  destruct (apply_filters _ date_range df) as [cs rs].
  destruct df as [cs' rs']. simpl in *. congruence.
Qed.

Lemma selecting_every_vessel_keeps_all_witness :
  let df := mkdf columns_of_code
                 [[PStr (lit "a.csv"); PStr (lit "Titan"); PInt 2; PInt 1;
                   PNaT];
                  [PStr (lit "b.csv"); PStr (lit "Argo"); PInt 3; PInt 0;
                   PDate (mkdate 2024 2 1)]] in
  apply_filters (unique (column df Vessel_Name)) [] df = df.
Proof.
  intros df. apply (selecting_every_vessel_keeps_all [] df). discriminate.
Defined.

Lemma app_report_widths_witness :
  let ws := excel_report
              (apply_filters [] []
                 (build_table [mkfile (Some (lit "log 01022024.csv")) None])) in
  nth_error (column_widths ws) 1 = Some 13.
Proof.
  intros ws.
  destruct (nth_error (ws_columns ws) 1) as [col|] eqn:Hc;
    [|vm_compute in Hc; discriminate Hc].
  subst ws.
  assert (Hne : [mkfile (Some (lit "log 01022024.csv")) None] <> [])
    by discriminate.
  destruct (app_report_widths _ [] [] 1 col Hne Hc) as [Hw _].
  rewrite Hw. vm_compute in Hc. injection Hc as <-. reflexivity.
Defined.
